(** * The retrieval-augmented question-answering engine

    A shallow embedding of [backend/services/rag_system.py]
    (class [EnhancedMUragSystem]) and the properties its specification
    states about it.

    Conventions of the embedding.
    - A Python [str] is a Rocq [string], one [ascii] per character;
      the accented characters of the source's literals appear as their
      UTF-8 bytes.  The character classes of [re] and of the [str]
      methods ([\s], [\d], [isspace], [lower], [upper]) are the ASCII
      members of Python's classes.
    - A Python [float] that carries a score is an exact rational [Q].
    - A [dict] used as a record is a Rocq record whose optional keys are
      [option] fields; the [metadata] dict of a langchain [Document] is a
      [gmap string Value].
    - The object [self], the files it writes and the calls it makes to
      its collaborators (Chroma, Ollama, the clock, the file system) are
      threaded through a state-and-exception monad, see [M] below. *)

From Stdlib Require Import String Ascii List ZArith QArith Qminmax Lia Lqa Bool.
From Stdlib Require Import Permutation Sorting.Sorted PrimFloat.
From stdpp Require Import base strings gmap.
Import ListNotations.

Local Open Scope string_scope.
Local Open Scope list_scope.
Local Open Scope nat_scope.

(* ================================================================== *)
(** * Text primitives: the [str] methods and [re] patterns in use      *)
(* ================================================================== *)

Module Text.

(** [str.isspace] on the ASCII range: TAB, LF, VT, FF, CR, FS, GS, RS,
    US and the space.  This is also the class [\s] of [re] and the set
    [str.strip()] removes. *)
Definition isspace (c : ascii) : bool :=
  let n := nat_of_ascii c in
  ((9 <=? n) && (n <=? 13)) || ((28 <=? n) && (n <=? 32)).

(** The class [\d] of [re], ASCII members. *)
Definition isdigit (c : ascii) : bool :=
  let n := nat_of_ascii c in (48 <=? n) && (n <=? 57).

Definition digit_value (c : ascii) : nat := nat_of_ascii c - 48.

Definition lower_char (c : ascii) : ascii :=
  let n := nat_of_ascii c in
  if (65 <=? n) && (n <=? 90) then ascii_of_nat (n + 32) else c.

Definition upper_char (c : ascii) : ascii :=
  let n := nat_of_ascii c in
  if (97 <=? n) && (n <=? 122) then ascii_of_nat (n - 32) else c.

Fixpoint smap (f : ascii -> ascii) (s : string) : string :=
  match s with
  | EmptyString => EmptyString
  | String c t => String (f c) (smap f t)
  end.

(** [s.lower()], [s.upper()] *)
Definition lower : string -> string := smap lower_char.
Definition upper : string -> string := smap upper_char.

(** [s.capitalize()]: first character upper-cased, the rest lower-cased. *)
Definition capitalize (s : string) : string :=
  match s with
  | EmptyString => EmptyString
  | String c t => String (upper_char c) (lower t)
  end.

Fixpoint srev_onto (s acc : string) : string :=
  match s with
  | EmptyString => acc
  | String c t => srev_onto t (String c acc)
  end.

Definition srev (s : string) : string := srev_onto s EmptyString.

Fixpoint lstrip (s : string) : string :=
  match s with
  | EmptyString => EmptyString
  | String c t => if isspace c then lstrip t else s
  end.

Definition rstrip (s : string) : string := srev (lstrip (srev s)).

(** [s.strip()] *)
Definition strip (s : string) : string := rstrip (lstrip s).

(** [s[:n]] for [n >= 0]. *)
Fixpoint take (n : nat) (s : string) : string :=
  match n, s with
  | S k, String c t => String c (take k t)
  | _, _ => EmptyString
  end.

(** [sep.join(parts)] *)
Fixpoint join (sep : string) (parts : list string) : string :=
  match parts with
  | [] => EmptyString
  | [p] => p
  | p :: rest => p +:+ sep +:+ join sep rest
  end.

(** [s.startswith(p)], returning what follows the prefix. *)
Fixpoint startswith (p s : string) : option string :=
  match p, s with
  | EmptyString, _ => Some s
  | String a p', String b s' =>
      if Ascii.eqb a b then startswith p' s' else None
  | String _ _, EmptyString => None
  end.

(** [s.partition(p)] when [p] occurs in [s]: the text before the leftmost
    occurrence of [p] and the text after it; [None] when [p] does not
    occur. *)
Fixpoint partition (p s : string) : option (string * string) :=
  match startswith p s with
  | Some r => Some (EmptyString, r)
  | None =>
      match s with
      | EmptyString => None
      | String c t =>
          match partition p t with
          | Some (a, r) => Some (String c a, r)
          | None => None
          end
      end
  end.

(** [p in s] *)
Definition contains (p s : string) : bool :=
  match partition p s with Some _ => true | None => false end.

(** The longest prefix of [s] in the class [cls], and the rest: a greedy
    [cls*]. *)
Fixpoint span (cls : ascii -> bool) (s : string) : string * string :=
  match s with
  | EmptyString => (EmptyString, EmptyString)
  | String c t =>
      if cls c then let '(a, r) := span cls t in (String c a, r)
      else (EmptyString, s)
  end.

(** [s.split()]: the maximal runs of non-space characters. *)
Fixpoint split_ws_aux (s cur : string) : list string :=
  match s with
  | EmptyString =>
      match cur with EmptyString => [] | _ => [srev cur] end
  | String c t =>
      if isspace c then
        match cur with
        | EmptyString => split_ws_aux t EmptyString
        | _ => srev cur :: split_ws_aux t EmptyString
        end
      else split_ws_aux t (String c cur)
  end.

Definition split_ws (s : string) : list string := split_ws_aux s EmptyString.

(** [s.rfind('/') + 1] followed by [s[i:]]: [os.path.basename]. *)
Fixpoint basename_aux (s cur : string) : string :=
  match s with
  | EmptyString => srev cur
  | String c t =>
      if Ascii.eqb c "/"%char then basename_aux t EmptyString
      else basename_aux t (String c cur)
  end.

Definition basename (path : string) : string := basename_aux path EmptyString.

(** Decimal numerals: [str(n)] for a natural number. *)
Definition digit_char (d : nat) : ascii := ascii_of_nat (48 + d).

Fixpoint str_of_nat_aux (fuel n : nat) (acc : string) : string :=
  match fuel with
  | O => acc
  | S f =>
      let acc' := String (digit_char (n mod 10)) acc in
      if n / 10 =? 0 then acc' else str_of_nat_aux f (n / 10) acc'
  end.

Definition str_of_nat (n : nat) : string := str_of_nat_aux (S n) n EmptyString.

Definition str_of_Z (z : Z) : string :=
  match z with
  | Z0 => "0"
  | Zpos p => str_of_nat (Pos.to_nat p)
  | Zneg p => "-" +:+ str_of_nat (Pos.to_nat p)
  end.

(** The value of a run of decimal digits, most significant first. *)
Fixpoint digits_value (s : string) (acc : nat) : nat :=
  match s with
  | EmptyString => acc
  | String c t => digits_value t (10 * acc + digit_value c)
  end.

(** [re.sub(opening + '.*?' + closing, '', s, flags=re.DOTALL)] for
    literal [opening] and [closing].  The scan finds the leftmost
    [opening]; the lazy [.*?] then stops at the first [closing] after it,
    the span is dropped and the scan resumes behind it.  When no
    [closing] follows the leftmost [opening] none follows a later one
    either, and the rest is kept as it is.  Each round consumes at least
    one character, so [String.length s] rounds are enough
    ([sub_span_fuel]). *)
Fixpoint sub_span (fuel : nat) (opening closing s : string) : string :=
  match fuel with
  | O => s
  | S f =>
      match partition opening s with
      | None => s
      | Some (pre, r) =>
          match partition closing r with
          | None => s
          | Some (_, rest) => pre +:+ sub_span f opening closing rest
          end
      end
  end.

Definition re_sub_span (opening closing s : string) : string :=
  sub_span (String.length s) opening closing s.

End Text.

(* ================================================================== *)
(** * Data model                                                       *)
(* ================================================================== *)

(** A line feed, and the blank-line separator ["\n\n"]. *)
Definition LF : string := String "010"%char EmptyString.
Definition LF2 : string := LF +:+ LF.

(** The values the metadata of a chunk holds. *)
Inductive Value : Type :=
| VNone
| VInt (z : Z)
| VStr (s : string).

#[global] Instance Value_eq_dec : EqDecision Value.
Proof. solve_decision. Defined.

(** langchain's [Document]: a chunk and its provenance. *)
Record Document : Type := mkDocument {
  page_content : string;
  metadata : gmap string Value
}.

#[global] Instance Document_eq_dec : EqDecision Document.
Proof. solve_decision. Defined.

(** [d.get(key)] and [d.get(key, default)] *)
Definition dict_get (d : gmap string Value) (key : string) : Value :=
  default VNone (d !! key).

Definition dict_get_or (d : gmap string Value) (key : string) (dflt : Value) : Value :=
  default dflt (d !! key).

(** How an f-string renders a metadata value. *)
Definition format_value (v : Value) : string :=
  match v with
  | VNone => "None"
  | VInt z => Text.str_of_Z z
  | VStr s => s
  end.

(** One entry of [self.conversation_memory]. *)
Record Turn : Type := mkTurn {
  turn_question : string;
  turn_answer : string;
  turn_timestamp : Q
}.

(** One message of an [ollama.chat] request. *)
Record Message : Type := mkMessage {
  role : string;
  content : string
}.

(** The dict a component check returns.  [passed] is the key
    [is_relevant] of the context and relevance checks and the key
    [is_faithful] of the faithfulness check. *)
Record Verification : Type := mkVerification {
  score : Q;
  passed : bool;
  explanation : string
}.

(** [verification_result] of [ask]. *)
Record VerificationResult : Type := mkVerificationResult {
  context_relevance : Verification;
  answer_faithfulness : Verification;
  answer_relevance : Verification
}.

(** The values of the key [verification_status]. *)
Inductive Status : Type :=
| generated | validated | needs_improvement | corrected | no_context | error.

Definition status_string (s : Status) : string :=
  match s with
  | generated => "generated"
  | validated => "validated"
  | needs_improvement => "needs_improvement"
  | corrected => "corrected"
  | no_context => "no_context"
  | error => "error"
  end.

(** The dict [ask] builds; the key [verification_score] is absent from
    the [no_context] and [error] dicts. *)
Record ResponseData : Type := mkResponseData {
  r_answer : string;
  verification_status : Status;
  verification_score : option Q;
  verification_details : option VerificationResult
}.

(** What [ask] returns: the dict when [return_metadata], else only the
    answer string. *)
Inductive AskResult : Type :=
| WithMetadata (d : ResponseData)
| AnswerOnly (a : string).

Definition result_answer (r : AskResult) : string :=
  match r with
  | WithMetadata d => r_answer d
  | AnswerOnly a => a
  end.

(* ================================================================== *)
(** * Scores                                                           *)
(* ================================================================== *)

(** [float(g)] for [g] matched by [\d+\.\d+|\d+]. *)
Definition float_of_decimal (g : string) : Q :=
  match Text.partition "." g with
  | None => inject_Z (Z.of_nat (Text.digits_value g 0))
  | Some (i, f) =>
      (inject_Z (Z.of_nat (Text.digits_value i 0)) +
       (Z.of_nat (Text.digits_value f 0) # Pos.of_nat (10 ^ String.length f)))%Q
  end.

(** [re.match(r'\[SCORE:\s*(\d+\.\d+|\d+)\]', s)]: the pattern anchored
    at the start of [s]; the result is group 1.  The classes [\s], [\d]
    and the literals that follow them are disjoint, so the greedy runs
    never give a character back; the second alternative is tried when
    the first does not reach the closing bracket. *)
Definition match_score_at (s : string) : option string :=
  match Text.startswith "[SCORE:" s with
  | None => None
  | Some r =>
      let '(_, r1) := Text.span Text.isspace r in
      let '(d1, r2) := Text.span Text.isdigit r1 in
      match d1 with
      | EmptyString => None
      | _ =>
          let alt2 :=
            match Text.startswith "]" r2 with
            | Some _ => Some d1
            | None => None
            end in
          match r2 with
          | String "."%char r3 =>
              let '(d2, r4) := Text.span Text.isdigit r3 in
              match d2, Text.startswith "]" r4 with
              | String _ _, Some _ => Some (d1 +:+ "." +:+ d2)
              | _, _ => alt2
              end
          | _ => alt2
          end
      end
  end.

(** [re.search] of the same pattern: the leftmost position that matches. *)
Fixpoint re_search_score (s : string) : option string :=
  match match_score_at s with
  | Some g => Some g
  | None =>
      match s with
      | EmptyString => None
      | String _ t => re_search_score t
      end
  end.

(** Lines 589-595, 629-635 and 669-675: the score read from the judge's
    text, clamped with [max(0.0, min(score, 1.0))], or 0.5. *)
Definition parse_score (result : string) : Q :=
  match re_search_score result with
  | Some g => Qmax 0 (Qmin (float_of_decimal g) 1)
  | None => 1 # 2
  end.

(** The dict of a component check, from the judge's text. *)
Definition verdict (result : string) : Verification :=
  let score := parse_score result in
  {| score := score;
     passed := Qle_bool (1 # 2) score;
     explanation := Text.strip result |}.

(** The dict of a component check whose judge call raised. *)
Definition verdict_on_error : Verification :=
  {| score := 1 # 2; passed := true; explanation := "Erreur de vérification" |}.

(** Lines 459-463 of [ask]. *)
Definition composite_score (context_score faithfulness_score relevance_score : Q) : Q :=
  (context_score * (2 # 10) + faithfulness_score * (4 # 10) + relevance_score * (4 # 10))%Q.

(** The same sum on binary64 floats, in the order Python evaluates it. *)
Definition composite_score_binary64 (context_score faithfulness_score relevance_score : float)
    : float :=
  (context_score * 0x1.999999999999ap-3 + faithfulness_score * 0x1.999999999999ap-2 +
   relevance_score * 0x1.999999999999ap-2)%float.

(** [_clean_think_blocks] *)
Definition _clean_think_blocks (text : string) : string :=
  let text := Text.re_sub_span "<think>" "</think>" text in
  let text := Text.re_sub_span "<reasoning>" "</reasoning>" text in
  Text.strip text.

(* ================================================================== *)
(** * Conversation memory, the list                                    *)
(* ================================================================== *)

(** The slice [l[-n:]] for [n > 0]. *)
Definition last_n {A : Type} (n : nat) (l : list A) : list A :=
  skipn (length l - n) l.

(** Lines 553-561 of [_add_to_conversation_memory]: the append and the
    cap. *)
Definition memory_append (memory : list Turn) (entry : Turn) : list Turn :=
  let memory := memory ++ [entry] in
  if 50 <? length memory then last_n 50 memory else memory.

(* ================================================================== *)
(** * The object, its collaborators and the monad of its methods       *)
(* ================================================================== *)

(** The outcome of a Python call: a value, or a raised exception with
    its [str(e)]. *)
Inductive Exc (A : Type) : Type :=
| Ok (a : A)
| Raise (e : string).
Arguments Ok {A} a.
Arguments Raise {A} e.

(** [Article] rows, as far as the engine reads them. *)
Record Article : Type := mkArticle {
  article_id_of : Z;
  article_user_id : Z;
  article_title : string;
  original_filename : string;
  file_path : string
}.

(** One entry of the parsed ArXiv feed. *)
Record FeedEntry : Type := mkFeedEntry {
  entry_published : option string;
  entry_id : string;
  entry_title : string;
  entry_summary : string;
  entry_link : string
}.

(** A recommendation dict.  The keys [filename], [year], [score], [url]
    and [pdf_url] are present for some sources only; [_rerank_results]
    also tests for [source] and [title]. *)
Record Recommendation : Type := mkRecommendation {
  rec_title : option string;
  rec_snippet : option string;
  rec_source : option string;
  rec_relevance : string;
  rec_filename : option string;
  rec_year : option Z;
  rec_score : option nat;
  rec_url : option string;
  rec_pdf_url : option string;
  rec_article : option Article
}.

(** An image, figure or table extracted from a PDF, as far as the
    engine reads its dict. *)
Record VisualElement : Type := mkVisualElement {
  ve_type : string;
  ve_page_num : Z;
  ve_caption : string;
  ve_text_content : string
}.

(** A record of [self.lexical_index]. *)
Record LexicalEntry : Type := mkLexicalEntry {
  lex_content : string;
  lex_chunks : list string;
  lex_images : list VisualElement;
  lex_figures_tables : list VisualElement
}.

(** The calls that leave the object.  [EvChat] keeps the outcome of the
    call, [EvDump] what was written to the memory file. *)
Inductive Event : Type :=
| EvRetrieve (query : string)
| EvSimilaritySearch (query : string) (k : nat)
| EvSearchByVector (embedding : list Q) (k : nat)
| EvEmbed (text : string)
| EvChat (model : string) (messages : list Message) (response : Exc string)
| EvTime
| EvDump (memory : list Turn) (outcome : Exc unit)
| EvArticleGet (id : Value)
| EvHttpGet (url : string)
| EvNow
| EvPathExists (path : string)
| EvLoadPdf (path : string)
| EvSplit (docs : list Document)
| EvAddDocuments (chunks : list Document)
| EvPersist
| EvDumpLexical (index : list (string * LexicalEntry)).

(** The collaborators.  Each call receives the number of calls made
    before it, so that a collaborator may answer the same request
    differently at different times. *)
Record World : Type := mkWorld {
  (** [current_app.config.get('DEFAULT_SUMMARIZATION_MODEL', 'DeepSeek-R1')] *)
  DEFAULT_SUMMARIZATION_MODEL : string;
  (** [self.retriever.invoke(question)], the MMR retriever *)
  retriever_invoke : nat -> string -> Exc (list Document);
  (** [self.vectorstore.similarity_search(question, k=k)] *)
  similarity_search : nat -> string -> nat -> Exc (list Document);
  (** [self.vectorstore.similarity_search_by_vector(embedding, k=k)] *)
  similarity_search_by_vector : nat -> list Q -> nat -> Exc (list Document);
  (** [self.embeddings.embed_query(text)] *)
  embed_query : nat -> string -> Exc (list Q);
  (** [ollama.chat(model, messages)['message']['content']] *)
  ollama_chat : nat -> string -> list Message -> Exc string;
  (** [time.time()] *)
  time_time : nat -> Q;
  (** [open(memory_file, "wb")] and [pickle.dump] *)
  pickle_dump : nat -> list Turn -> Exc unit;
  (** [Article.query.get(id)] *)
  article_query_get : nat -> Value -> Exc (option Article);
  (** [requests.get(url, timeout=10)] followed by [feedparser.parse]:
      the status code and the entries *)
  requests_get : nat -> string -> Exc (Z * list FeedEntry);
  (** [float(util.pytorch_cos_sim(tensor1, tensor2)[0][0])] *)
  pytorch_cos_sim : list Q -> list Q -> Exc Q;
  (** [datetime.datetime.now().year] *)
  now_year : nat -> Z;
  (** [os.path.exists(path)] *)
  path_exists : nat -> string -> bool;
  (** [PyPDFLoader(path).load()] *)
  pdf_load : nat -> string -> Exc (list Document);
  (** [_extract_images_from_pdf], [_extract_figures_tables_from_pdf]:
      both catch what they raise and return a list *)
  extract_images : string -> list VisualElement;
  extract_figures_tables : string -> list VisualElement;
  (** [RecursiveCharacterTextSplitter(1000, 200).split_documents] *)
  split_documents : list Document -> Exc (list Document);
  (** [self.vectorstore.add_documents(chunks)], [self.vectorstore.persist()] *)
  add_documents : nat -> list Document -> Exc unit;
  persist : nat -> Exc unit;
  (** [open(self.lexical_index_path, "wb")] and [pickle.dump] *)
  lexical_dump : nat -> list (string * LexicalEntry) -> Exc unit
}.

(** [self], together with the memory file of its identity and the calls
    made so far. *)
Record RagSystem : Type := mkRagSystem {
  user_id : option Z;
  verification_model : string;
  lexical_index : list (string * LexicalEntry);
  conversation_memory : list Turn;
  memory_file : option (list Turn);
  trace : list Event
}.

Definition set_conversation_memory (m : list Turn) (s : RagSystem) : RagSystem :=
  {| user_id := user_id s; verification_model := verification_model s;
     lexical_index := lexical_index s; conversation_memory := m;
     memory_file := memory_file s; trace := trace s |}.

Definition set_memory_file (f : option (list Turn)) (s : RagSystem) : RagSystem :=
  {| user_id := user_id s; verification_model := verification_model s;
     lexical_index := lexical_index s; conversation_memory := conversation_memory s;
     memory_file := f; trace := trace s |}.

Definition set_lexical_index (ix : list (string * LexicalEntry)) (s : RagSystem) : RagSystem :=
  {| user_id := user_id s; verification_model := verification_model s;
     lexical_index := ix; conversation_memory := conversation_memory s;
     memory_file := memory_file s; trace := trace s |}.

Definition log (ev : Event) (s : RagSystem) : RagSystem :=
  {| user_id := user_id s; verification_model := verification_model s;
     lexical_index := lexical_index s; conversation_memory := conversation_memory s;
     memory_file := memory_file s; trace := trace s ++ [ev] |}.

(** A method: it runs on [self] and ends with a value or an exception;
    what it did to [self] before raising stays done. *)
Definition M (A : Type) : Type := RagSystem -> Exc A * RagSystem.

Definition ret {A : Type} (a : A) : M A := fun s => (Ok a, s).

Definition raise {A : Type} (e : string) : M A := fun s => (Raise e, s).

Definition bind {A B : Type} (m : M A) (f : A -> M B) : M B :=
  fun s =>
    match m s with
    | (Ok a, s') => f a s'
    | (Raise e, s') => (Raise e, s')
    end.

(** [try: m  except Exception as e: handler e] *)
Definition try_except {A : Type} (m : M A) (handler : string -> M A) : M A :=
  fun s =>
    match m s with
    | (Ok a, s') => (Ok a, s')
    | (Raise e, s') => handler e s'
    end.

Definition lift_exc {A : Type} (r : Exc A) : M A := fun s => (r, s).

Definition get_self : M RagSystem := fun s => (Ok s, s).

Definition modify (f : RagSystem -> RagSystem) : M unit := fun s => (Ok tt, f s).

(** A call to a collaborator: it is answered at the current call count
    and logged. *)
Definition call {A : Type} (ev : Event) (answer : nat -> Exc A) : M A :=
  fun s => (answer (length (trace s)), log ev s).

Declare Scope rag_scope.
Delimit Scope rag_scope with rag.
Notation "x <- c1 ;; c2" := (bind c1 (fun x => c2))
  (at level 100, c1 at next level, right associativity) : rag_scope.
Notation "c1 ;; c2" := (bind c1 (fun _ => c2))
  (at level 100, right associativity) : rag_scope.
Local Open Scope rag_scope.

Definition nonempty_str (s : string) : bool :=
  match s with EmptyString => false | _ => true end.

Definition nonempty {A : Type} (l : list A) : bool :=
  match l with [] => false | _ => true end.

(** [l.sort(key=key, reverse=True)]: elements in descending key order,
    elements of equal key in the order they had.  The result of a stable
    sort is determined by these two properties, so insertion stands for
    Python's merge sort. *)
Section StableSort.
Context {A K : Type} (key : A -> K) (ltb : K -> K -> bool).

Fixpoint insert_desc (x : A) (l : list A) : list A :=
  match l with
  | [] => [x]
  | y :: t => if ltb (key x) (key y) then y :: insert_desc x t else x :: l
  end.

Fixpoint sort_desc (l : list A) : list A :=
  match l with
  | [] => []
  | x :: t => insert_desc x (sort_desc t)
  end.
End StableSort.

Definition Qltb (a b : Q) : bool := negb (Qle_bool b a).

(** [self.lexical_index[filename] = entry] *)
Fixpoint dict_set {V : Type} (key : string) (v : V) (d : list (string * V)) : list (string * V) :=
  match d with
  | [] => [(key, v)]
  | (k, v') :: t =>
      if String.eqb key k then (key, v) :: t else (k, v') :: dict_set key v t
  end.

Section Engine.

Variable W : World.

(** ** Calls to the collaborators *)

Definition do_retriever_invoke (question : string) : M (list Document) :=
  call (EvRetrieve question) (fun n => retriever_invoke W n question).

Definition do_similarity_search (question : string) (k : nat) : M (list Document) :=
  call (EvSimilaritySearch question k) (fun n => similarity_search W n question k).

Definition do_embed_query (text : string) : M (list Q) :=
  call (EvEmbed text) (fun n => embed_query W n text).

Definition do_ollama_chat (model : string) (messages : list Message) : M string :=
  fun s =>
    let response := ollama_chat W (length (trace s)) model messages in
    (response, log (EvChat model messages response) s).

Definition do_time_time : M Q :=
  fun s => (Ok (time_time W (length (trace s))), log EvTime s).

(** Writing the memory file; a failed write leaves the file as it was. *)
Definition do_pickle_dump (memory : list Turn) : M unit :=
  fun s =>
    let outcome := pickle_dump W (length (trace s)) memory in
    (outcome,
     log (EvDump memory outcome)
         (match outcome with
          | Ok _ => set_memory_file (Some memory) s
          | Raise _ => s
          end)).

(** ** Conversation memory *)

(** [_save_conversation_memory] *)
Definition _save_conversation_memory : M unit :=
  try_except
    (self <- get_self ;;
     do_pickle_dump (conversation_memory self))
    (fun _ => ret tt).

(** [_add_to_conversation_memory] *)
Definition _add_to_conversation_memory (question answer : string) : M unit :=
  now <- do_time_time ;;
  modify (fun self =>
    set_conversation_memory
      (memory_append (conversation_memory self)
         {| turn_question := question; turn_answer := answer; turn_timestamp := now |})
      self) ;;
  _save_conversation_memory.


(** One entry of the history block, [idx] counted from 0. *)
Definition memory_entry_text (idx : nat) (entry : Turn) : string :=
  "Échange " +:+ Text.str_of_nat (idx + 1) +:+ ":" +:+ LF +:+
  "Question: " +:+ turn_question entry +:+ LF +:+
  "Réponse: " +:+ turn_answer entry.

Fixpoint enumerate_from {A : Type} (i : nat) (l : list A) : list (nat * A) :=
  match l with
  | [] => []
  | x :: t => (i, x) :: enumerate_from (S i) t
  end.

(** [_build_memory_context] *)
Definition _build_memory_context : M string :=
  self <- get_self ;;
  match conversation_memory self with
  | [] => ret ""
  | _ =>
      let memory_entries :=
        map (fun '(idx, entry) => memory_entry_text idx entry)
            (enumerate_from 0 (last_n 5 (conversation_memory self))) in
      ret ("=== HISTORIQUE DES CONVERSATIONS PRÉCÉDENTES ===" +:+ LF +:+
           Text.join LF2 memory_entries +:+ LF2 +:+
           "=== FIN DE L'HISTORIQUE ===" +:+ LF2)
  end.

(** ** Retrieval *)

(** The inner loop of lines 507-511: every [key, value] of [filters] is
    what [doc.metadata.get(key)] returns. *)
Fixpoint metadata_matches (filters : list (string * Value)) (md : gmap string Value) : bool :=
  match filters with
  | [] => true
  | (key, value) :: rest =>
      if decide (dict_get md key = value) then metadata_matches rest md else false
  end.

(** The loop of lines 505-515, with its [break] once [k] matches are
    collected: [filtered_docs] when the loop is left. *)
Fixpoint filter_loop (filters : list (string * Value)) (k : nat)
    (all_docs filtered_docs : list Document) : list Document :=
  match all_docs with
  | [] => filtered_docs
  | doc :: rest =>
      if metadata_matches filters (metadata doc) then
        let filtered_docs := filtered_docs ++ [doc] in
        if k <=? length filtered_docs then filtered_docs
        else filter_loop filters k rest filtered_docs
      else filter_loop filters k rest filtered_docs
  end.

(** [_filtered_search] *)
Definition _filtered_search (question : string) (filters : list (string * Value))
    (k : nat) : M (list Document) :=
  try_except
    (all_docs <- do_similarity_search question (k * 3) ;;
     let filtered_docs := filter_loop filters k all_docs [] in
     ret (firstn k filtered_docs))
    (fun _ => do_similarity_search question k).

(** ** Prompts *)

(** [_build_prompt] *)
Definition _build_prompt (question full_context : string) : string :=
  "You are an AI assistant with access to textual and visual information from documents.
Your mission is to answer the user's question based ONLY on the provided context and the history of previous conversations.

IMPORTANT INSTRUCTIONS:
1. Use previous conversation history to keep continuity and coherence.
2. If the question refers to a past message, take that into account.
3. ALWAYS respond in the language of the question.
4. NEVER invent facts — only use what is present in the context or history.
5. Do NOT mention 'context' or 'source' unless asked to.

" +:+ full_context +:+ "

CURRENT QUESTION: " +:+ question +:+ "

Respond concisely and clearly, as if speaking naturally to the user.".

Definition context_relevance_prompt (question context : string) : string :=
  "
            You are an expert in information retrieval systems. 
            Evaluate whether the provided context is helpful for answering the question.

            Question: " +:+ question +:+ "
            Context: " +:+ context +:+ "

            Respond with a numerical score between 0 and 1:
            - 0.0: Completely irrelevant
            - 0.5: Moderate relevance 
            - 1.0: Highly relevant

            Format: [SCORE: X.X] Explanation...
            ".

Definition faithfulness_prompt (context answer : string) : string :=
  "
            Evaluate whether the answer is accurate and based on the provided context.

            Context: " +:+ context +:+ "
            Answer: " +:+ answer +:+ "

            Score from 0 to 1:
            - 0.0: Complete hallucination
            - 0.5: Mix of supported and unsupported information
            - 1.0: Completely faithful

            Format: [SCORE: X.X] Explanation...
            ".

Definition relevance_prompt (question answer : string) : string :=
  "
            Evaluate whether the answer effectively responds to the question.

            Question: " +:+ question +:+ "
            Answer: " +:+ answer +:+ "

            Score from 0 to 1:
            - 0.0: Completely off-topic
            - 0.5: Partially addresses the question
            - 1.0: Fully addresses the question

            Format: [SCORE: X.X] Explanation...
            ".

Definition correction_prompt (question context answer issues : string) : string :=
  "
            As a scientific expert, correct the following answer based on the issues identified.

            Your correction must:
            1. Use ONLY information found in the provided context
            2. Stay logically faithful (even if rephrased)
            3. Directly answer the question
            4. Avoid any hallucinations or invented facts

            Question: " +:+ question +:+ "

            Available context:
            " +:+ context +:+ "

            Original answer:
            " +:+ answer +:+ "

            Identified issues:
            " +:+ issues +:+ "

            Write a corrected answer below (without mentioning the corrections or issues):
            ".

Definition user_message (prompt : string) : Message :=
  {| role := "user"; content := prompt |}.

Definition system_message : Message :=
  {| role := "system";
     content := "Vous devez maintenir la continuité de la conversation." |}.

(** ** The component checks *)

(** The judge call shared by the three checks: the model's text becomes
    a verdict, and whatever the call raises is caught and answered with
    the neutral verdict. *)
Definition judge (prompt : string) : M Verification :=
  try_except
    (self <- get_self ;;
     result <- do_ollama_chat (verification_model self) [user_message prompt] ;;
     ret (verdict result))
    (fun _ => ret verdict_on_error).

(** [_verify_context_relevance] *)
Definition _verify_context_relevance (question context : string) : M Verification :=
  judge (context_relevance_prompt question context).

(** [_verify_answer_faithfulness] *)
Definition _verify_answer_faithfulness (context answer : string) : M Verification :=
  judge (faithfulness_prompt context answer).

(** [_verify_answer_relevance] *)
Definition _verify_answer_relevance (question answer : string) : M Verification :=
  judge (relevance_prompt question answer).

(** ** The correction pass *)

(** [score < 0.7] *)
Definition below_07 (v : Verification) : bool := negb (Qle_bool (7 # 10) (score v)).

Definition issues_of (verification_result : VerificationResult) : list string :=
  (if below_07 (context_relevance verification_result)
   then ["Contexte peu pertinent: " +:+ explanation (context_relevance verification_result)]
   else []) ++
  (if below_07 (answer_faithfulness verification_result)
   then ["Réponse infidèle: " +:+ explanation (answer_faithfulness verification_result)]
   else []) ++
  (if below_07 (answer_relevance verification_result)
   then ["Réponse peu pertinente: " +:+ explanation (answer_relevance verification_result)]
   else []).

(** [_suggest_improved_answer] *)
Definition _suggest_improved_answer (question context answer : string)
    (verification_result : VerificationResult) : M string :=
  try_except
    (let issues := issues_of verification_result in
     let prompt := correction_prompt question context answer (Text.join "; " issues) in
     response <- do_ollama_chat (DEFAULT_SUMMARIZATION_MODEL W) [user_message prompt] ;;
     ret (_clean_think_blocks response))
    (fun _ => ret answer).

(** ** [ask] *)

(** Python truthiness of an optional integer: [None] and [0] are false. *)
Definition truthy (z : option Z) : option Z :=
  match z with
  | Some 0%Z | None => None
  | Some v => Some v
  end.

(** Lines 380-384: the filters. *)
Definition search_filters_of (user_id article_id : option Z) : list (string * Value) :=
  (match truthy user_id with Some u => [("user_id", VInt u)] | None => [] end) ++
  (match truthy article_id with Some a => [("article_id", VInt a)] | None => [] end).

(** Lines 387-391: the retrieval. *)
Definition retrieve (question : string) (search_filters : list (string * Value)) : M (list Document) :=
  if nonempty search_filters then _filtered_search question search_filters 5
  else do_retriever_invoke question.

(** Lines 405-411: what one chunk adds to [context_parts]. *)
Definition context_parts_of (doc : Document) : list string :=
  let md := metadata doc in
  page_content doc ::
  match dict_get md "type" with
  | VStr "image" =>
      ["[INFORMATION VISUELLE] " +:+ format_value (dict_get_or md "text_content" (VStr ""))]
  | VStr ty =>
      if String.eqb ty "figure" || String.eqb ty "table" then
        ["[" +:+ Text.upper ty +:+ "] " +:+ format_value (dict_get_or md "caption" (VStr "")) +:+
         " - " +:+ format_value (dict_get_or md "text_content" (VStr ""))]
      else []
  | _ => []
  end.

Definition NO_CONTEXT_ANSWER : string :=
  "Aucune information pertinente trouvée dans les documents.".

Definition error_message (e : string) : string :=
  "❌ Erreur génération réponse: " +:+ e.

(** [doc not in docs] *)
Definition not_in (docs : list Document) (doc : Document) : bool :=
  negb (existsb (fun d => bool_decide (doc = d)) docs).

(** Lines 416-424: the context check with its one supplementary search.
    The result is the context, extended or not, and the verdict on it. *)
Definition check_context (question context : string) (docs : list Document)
    : M (string * Verification) :=
  context_verification <- _verify_context_relevance question context ;;
  if Qle_bool (score context_verification) (1 # 2) then
    additional_docs <- do_similarity_search question 5 ;;
    let additional_context :=
      Text.join LF2 (map page_content (filter (not_in docs) additional_docs)) in
    if nonempty_str additional_context then
      let context := context +:+ LF2 +:+ additional_context in
      context_verification <- _verify_context_relevance question context ;;
      ret (context, context_verification)
    else ret (context, context_verification)
  else ret (context, context_verification).

(** Lines 449-472: the verdict on the draft answer.  The result is
    [verification_result], [final_answer], [status] and [final_score]. *)
Definition check_answer (question context answer : string)
    (context_verification : Verification) (validation_threshold : Q)
    : M (VerificationResult * string * Status * Q) :=
  faithfulness_verification <- _verify_answer_faithfulness context answer ;;
  relevance_verification <- _verify_answer_relevance question answer ;;
  let verification_result :=
    {| context_relevance := context_verification;
       answer_faithfulness := faithfulness_verification;
       answer_relevance := relevance_verification |} in
  let final_score :=
    composite_score (score context_verification)
                    (score faithfulness_verification)
                    (score relevance_verification) in
  let is_valid := Qle_bool validation_threshold final_score in
  if is_valid then ret (verification_result, answer, validated, final_score)
  else
    improved_answer <- _suggest_improved_answer question context answer verification_result ;;
    if nonempty_str improved_answer
    then ret (verification_result, improved_answer, corrected, final_score)
    else ret (verification_result, answer, needs_improvement, final_score).

(** [ask] *)
Definition ask (question : string) (article_id : option Z) (return_metadata : bool)
    (validation_threshold : Q) : M AskResult :=
  try_except
    (self <- get_self ;;
     let search_filters := search_filters_of (user_id self) article_id in
     docs <- retrieve question search_filters ;;
     match docs with
     | [] =>
         let response_data :=
           {| r_answer := NO_CONTEXT_ANSWER;
              verification_status := no_context;
              verification_score := None;
              verification_details := None |} in
         _add_to_conversation_memory question (r_answer response_data) ;;
         ret (if return_metadata then WithMetadata response_data
              else AnswerOnly (r_answer response_data))
     | _ =>
         let context := Text.join LF2 (concat (map context_parts_of docs)) in
         checked <-
           (if return_metadata then
              cc <- check_context question context docs ;;
              ret (fst cc, Some (snd cc))
            else ret (context, None)) ;;
         let context := fst checked in
         memory_context <- _build_memory_context ;;
         let full_context :=
           memory_context +:+ LF +:+ "=== DOCUMENT CONTEXT ===" +:+ LF +:+
           context +:+ LF +:+ "=== END OF CONTEXT ===" in
         let prompt := _build_prompt question full_context in
         response <- do_ollama_chat (DEFAULT_SUMMARIZATION_MODEL W)
                       [system_message; user_message prompt] ;;
         let answer := _clean_think_blocks response in
         verdict <-
           (match return_metadata, snd checked with
            | true, Some context_verification =>
                v <- check_answer question context answer context_verification
                       validation_threshold ;;
                let '(verification_result, final_answer, status, final_score) := v in
                ret (Some verification_result, final_answer, status, final_score)
            | true, None => raise "name 'context_verification' is not defined"
            | false, _ => ret (None, answer, generated, 1 # 2)
            end) ;;
         let '(verification_result, final_answer, status, final_score) := verdict in
         _add_to_conversation_memory question final_answer ;;
         let result_dict :=
           {| r_answer := final_answer;
              verification_status := status;
              verification_score := Some final_score;
              verification_details := verification_result |} in
         ret (if return_metadata then WithMetadata result_dict
              else AnswerOnly final_answer)
     end)
    (fun e =>
       let error_msg := error_message e in
       let error_result :=
         {| r_answer := error_msg;
            verification_status := error;
            verification_score := None;
            verification_details := None |} in
       ret (if return_metadata then WithMetadata error_result
            else AnswerOnly (r_answer error_result))).

(** ** Recommendations *)

(** [sum(1 for keyword in keywords if keyword in text.lower())] *)
Definition keyword_hits (keywords : list string) (text : string) : nat :=
  length (filter (fun keyword => Text.contains keyword (Text.lower text)) keywords).

(** Lines 797-801: the chunk with the most keyword hits, the first of
    them on a tie. *)
Fixpoint best_chunk_loop (keywords : list string) (chunks : list string)
    (best_chunk : string) (best_score : nat) : string :=
  match chunks with
  | [] => best_chunk
  | chunk :: rest =>
      let chunk_score := keyword_hits keywords chunk in
      if best_score <? chunk_score
      then best_chunk_loop keywords rest chunk chunk_score
      else best_chunk_loop keywords rest best_chunk best_score
  end.

Definition lexical_result (filename : string) (score : nat) (best_chunk : string)
    : Recommendation :=
  {| rec_title := Some ("Document: " +:+ filename);
     rec_snippet := Some (Text.take 200 best_chunk +:+ "...");
     rec_source := Some "local";
     rec_relevance := "lexical: " +:+ Text.str_of_nat score;
     rec_filename := Some filename;
     rec_year := None;
     rec_score := Some score;
     rec_url := None;
     rec_pdf_url := None;
     rec_article := None |}.

(** Lines 790-810: the pass over the index. *)
Fixpoint lexical_loop (keywords : list string) (index : list (string * LexicalEntry))
    : list Recommendation :=
  match index with
  | [] => []
  | (filename, data) :: rest =>
      let score := keyword_hits keywords (lex_content data) in
      if 0 <? score then
        lexical_result filename score (best_chunk_loop keywords (lex_chunks data) "" 0)
          :: lexical_loop keywords rest
      else lexical_loop keywords rest
  end.

(** [_lexical_search] *)
Definition _lexical_search (query : string) (n : nat) : M (list Recommendation) :=
  self <- get_self ;;
  let query_lower := Text.lower query in
  let keywords := Text.split_ws query_lower in
  let results := lexical_loop keywords (lexical_index self) in
  let results := sort_desc (fun r => default 0 (rec_score r)) Nat.ltb results in
  ret (firstn n results).

Definition nonempty_opt (s : option string) : bool :=
  match s with Some (String _ _) => true | _ => false end.

(** [current_filename and filename == current_filename] *)
Definition is_current (current_filename : option string) (filename : string) : bool :=
  match current_filename with
  | Some (String c t) => String.eqb filename (String c t)
  | _ => false
  end.

Definition vector_result (doc : Document) (filename : string) (article : option Article)
    : Recommendation :=
  {| rec_title := Some (match article with
                        | Some a => article_title a
                        | None => "Document: " +:+ filename
                        end);
     rec_snippet := Some (Text.take 200 (page_content doc) +:+ "...");
     rec_source := Some "local";
     rec_relevance := "élevée";
     rec_filename := Some filename;
     rec_year := None;
     rec_score := None;
     rec_url := None;
     rec_pdf_url := None;
     rec_article := article |}.

Definition do_article_query_get (id : Value) : M (option Article) :=
  call (EvArticleGet id) (fun n => article_query_get W n id).

(** Lines 745-763: the pass over the vector-search hits. *)
Fixpoint vector_loop (current_filename : option string) (chroma_results : list Document)
    (results : list Recommendation) : M (list Recommendation) :=
  match chroma_results with
  | [] => ret results
  | doc :: rest =>
      match metadata doc !! "source" with
      | None => vector_loop current_filename rest results
      | Some (VStr source) =>
          let filename := Text.basename source in
          if is_current current_filename filename
          then vector_loop current_filename rest results
          else
            article <-
              (match metadata doc !! "article_id" with
               | Some id => do_article_query_get id
               | None => ret None
               end) ;;
            vector_loop current_filename rest
              (results ++ [vector_result doc filename article])
      | Some _ => raise "expected str, bytes or os.PathLike object"
      end
  end.

(** Lines 767-771: the pass over the lexical hits. *)
Fixpoint merge_lexical (current_filename : option string)
    (lexical_results results : list Recommendation) : Exc (list Recommendation) :=
  match lexical_results with
  | [] => Ok results
  | result :: rest =>
      match rec_filename result with
      | Some filename =>
          if is_current current_filename filename
          then merge_lexical current_filename rest results
          else if existsb (fun r => bool_decide (rec_filename r = Some filename)) results
          then merge_lexical current_filename rest results
          else merge_lexical current_filename rest (results ++ [result])
      | None => Raise "'filename'"
      end
  end.

(** [s.replace(old, new)] for a one-character [old]. *)
Fixpoint replace_char (old : ascii) (new : string) (s : string) : string :=
  match s with
  | EmptyString => EmptyString
  | String c t =>
      if Ascii.eqb c old then new +:+ replace_char old new t
      else String c (replace_char old new t)
  end.

(** [int(s)] for a decimal numeral with optional sign and surrounding
    blanks. *)
Definition int_of_string (s : string) : Exc Z :=
  let s := Text.strip s in
  let '(neg, body) :=
    match s with
    | String "-"%char t => (true, t)
    | String "+"%char t => (false, t)
    | _ => (false, s)
    end in
  match Text.span Text.isdigit body with
  | (String c d, EmptyString) =>
      let v := Z.of_nat (Text.digits_value (String c d) 0) in
      Ok (if neg then (- v)%Z else v)
  | _ => Raise ("invalid literal for int() with base 10: '" +:+ s +:+ "'")
  end.

(** [s.split('-')[0]] *)
Definition before_dash (s : string) : string :=
  match Text.partition "-" s with
  | Some (a, _) => a
  | None => s
  end.

Definition arxiv_result (entry : FeedEntry) (year : Z) : Recommendation :=
  let arxiv_id := Text.basename (entry_id entry) in
  {| rec_title := Some (entry_title entry);
     rec_snippet := Some (replace_char "010"%char " " (Text.take 200 (entry_summary entry)) +:+ "...");
     rec_source := Some "arxiv";
     rec_relevance := "récent (" +:+ Text.str_of_Z year +:+ ")";
     rec_filename := None;
     rec_year := Some year;
     rec_score := None;
     rec_url := Some (entry_link entry);
     rec_pdf_url := Some ("https://arxiv.org/pdf/" +:+ arxiv_id +:+ ".pdf");
     rec_article := None |}.

(** Lines 840-859: the pass over the feed, left once [n] results are
    collected. *)
Fixpoint arxiv_loop (n : nat) (entries : list FeedEntry) (results : list Recommendation)
    : Exc (list Recommendation) :=
  match entries with
  | [] => Ok results
  | entry :: rest =>
      match entry_published entry with
      | None => arxiv_loop n rest results
      | Some published =>
          match int_of_string (before_dash published) with
          | Raise e => Raise e
          | Ok year =>
              if (2024 <=? year)%Z then
                let results := results ++ [arxiv_result entry year] in
                if n <=? length results then Ok results
                else arxiv_loop n rest results
              else arxiv_loop n rest results
          end
      end
  end.

Definition do_now_year : M Z :=
  fun s => (Ok (now_year W (length (trace s))), log EvNow s).

Definition do_requests_get (url : string) : M (Z * list FeedEntry) :=
  call (EvHttpGet url) (fun n => requests_get W n url).

(** [_search_arxiv] *)
Definition _search_arxiv (text : string) (n : nat) : M (list Recommendation) :=
  try_except
    (let prompt :=
       "Extract 5 academic keywords from this text for ArXiv search. Return only keywords separated by commas: "
       +:+ Text.take 500 text in
     response <- do_ollama_chat (DEFAULT_SUMMARIZATION_MODEL W) [user_message prompt] ;;
     let keywords := _clean_think_blocks response in
     current_year <- do_now_year ;;
     let date_filter :=
       "+AND+submittedDate:[" +:+ Text.str_of_Z (current_year - 1) +:+ "0101+TO+" +:+
       Text.str_of_Z current_year +:+ "1231]" in
     let query := replace_char ","%char "+OR+" keywords +:+ date_filter in
     let arxiv_url :=
       "http://export.arxiv.org/api/query?search_query=" +:+ query +:+
       "&start=0&max_results=" +:+ Text.str_of_nat (n * 2) in
     response <- do_requests_get arxiv_url ;;
     if (fst response =? 200)%Z then lift_exc (arxiv_loop n (snd response) [])
     else ret [])
    (fun _ => ret []).

(** Lines 878-882 of [_rerank_results]: the key a result is
    deduplicated by. *)
Definition identifier_of (result : Recommendation) : option string :=
  let by_title :=
    match rec_title result with
    | Some title => Some (default "unknown" (rec_source result) +:+ ":" +:+ title)
    | None => None
    end in
  match rec_filename result with
  | Some filename =>
      if bool_decide (rec_source result = Some "local")
      then Some ("local:" +:+ filename)
      else by_title
  | None => by_title
  end.

(** Lines 877-886: the first result of each identifier is kept. *)
Fixpoint unique_loop (results : list Recommendation) (seen_identifiers : gset string)
    : list Recommendation :=
  match results with
  | [] => []
  | result :: rest =>
      match identifier_of result with
      | Some (String c t) =>
          let identifier := String c t in
          if bool_decide (identifier ∈ seen_identifiers)
          then unique_loop rest seen_identifiers
          else result :: unique_loop rest ({[ identifier ]} ∪ seen_identifiers)
      | _ => unique_loop rest seen_identifiers
      end
  end.

(** [SOURCE_WEIGHTS.get(source, 0.5)] *)
Definition source_weight (source : string) : Q :=
  if String.eqb source "local" then 1
  else if String.eqb source "arxiv" then 6 # 10
  else 1 # 2.

(** Line 896: [result.get('source') == 'arxiv' and
    result.get('year', 0) >= 2024] *)
Definition is_recent_arxiv (result : Recommendation) : bool :=
  match rec_source result with
  | Some "arxiv" => (2024 <=? default 0%Z (rec_year result))%Z
  | _ => false
  end.

(** Lines 900-911: the semantic score; whatever it raises is caught and
    scored 0. *)
Definition semantic_score_of (query_embedding : list Q) (result : Recommendation) : M Q :=
  try_except
    (let content := default "" (rec_snippet result) in
     if nonempty_str content then
       content_embedding <- do_embed_query content ;;
       similarity <- lift_exc (pytorch_cos_sim W query_embedding content_embedding) ;;
       ret (similarity * 2)%Q
     else ret 0%Q)
    (fun _ => ret 0%Q).

(** Lines 892-914: one result and its final score. *)
Definition score_result (query_embedding : list Q) (result : Recommendation)
    : M (Recommendation * Q) :=
  source <- (match rec_source result with
             | Some src => ret src
             | None => raise "'source'"
             end) ;;
  let base_score := source_weight source in
  base_score <-
    (if is_recent_arxiv result then
       this_year <- do_now_year ;;
       ret (base_score +
            (if (default 0 (rec_year result) =? this_year)%Z then 1 else 8 # 10))%Q
     else ret base_score) ;;
  semantic_score <- semantic_score_of query_embedding result ;;
  let final_score := (base_score + semantic_score)%Q in
  ret (result, final_score).

Fixpoint score_loop (query_embedding : list Q) (unique_results : list Recommendation)
    : M (list (Recommendation * Q)) :=
  match unique_results with
  | [] => ret []
  | result :: rest =>
      scored <- score_result query_embedding result ;;
      scored_rest <- score_loop query_embedding rest ;;
      ret (scored :: scored_rest)
  end.

(** The body of the [try] of [_rerank_results]. *)
Definition rerank_body (results : list Recommendation) (query_text : string)
    : M (list Recommendation) :=
  let unique_results := unique_loop results ∅ in
  query_embedding <- do_embed_query (Text.take 1000 query_text) ;;
  scored_results <- score_loop query_embedding unique_results ;;
  let scored_results := sort_desc snd Qltb scored_results in
  ret (map fst scored_results).

(** [_rerank_results] *)
Definition _rerank_results (results : list Recommendation) (query_text : string)
    : M (list Recommendation) :=
  try_except (rerank_body results query_text) (fun _ => ret results).

Definition do_similarity_search_by_vector (embedding : list Q) (k : nat)
    : M (list Document) :=
  call (EvSearchByVector embedding k) (fun n => similarity_search_by_vector W n embedding k).

(** [get_recommendations] *)
Definition get_recommendations (text : string) (n : nat) (current_filename : option string)
    : M (list Recommendation) :=
  try_except
    (embedding <- do_embed_query (Text.take 1000 text) ;;
     chroma_results <- do_similarity_search_by_vector embedding (n + 5) ;;
     results <- vector_loop current_filename chroma_results [] ;;
     lexical_results <- _lexical_search (Text.take 1000 text) n ;;
     results <- lift_exc (merge_lexical current_filename lexical_results results) ;;
     results <-
       (if length results <? n then
          arxiv_results <- _search_arxiv text (n - length results) ;;
          ret (results ++ arxiv_results)
        else ret results) ;;
     reranked <- _rerank_results results text ;;
     ret (firstn n reranked))
    (fun _ => ret []).

(** ** Ingestion *)

(** [_index_document_for_lexical_search] *)
Definition _index_document_for_lexical_search (docs : list Document) (filename : string)
    (images figures_tables : list VisualElement) : M unit :=
  let full_text := Text.join " " (map page_content docs) in
  let full_text :=
    fold_left (fun full_text img =>
                 if nonempty_str (ve_text_content img)
                 then full_text +:+ " Image: " +:+ ve_text_content img
                 else full_text)
              images full_text in
  let full_text :=
    fold_left (fun full_text elem =>
                 if nonempty_str (ve_text_content elem)
                 then full_text +:+ " " +:+ Text.capitalize (ve_type elem) +:+ ": " +:+
                      ve_caption elem +:+ " - " +:+ ve_text_content elem
                 else full_text)
              figures_tables full_text in
  modify (fun self =>
    set_lexical_index
      (dict_set filename
         {| lex_content := full_text;
            lex_chunks := map page_content docs;
            lex_images := images;
            lex_figures_tables := figures_tables |}
         (lexical_index self))
      self).

(** [_save_lexical_index] *)
Definition _save_lexical_index : M unit :=
  try_except
    (self <- get_self ;;
     call (EvDumpLexical (lexical_index self))
          (fun n => lexical_dump W n (lexical_index self)))
    (fun _ => ret tt).

Definition visual_document (article : Article) (elem : VisualElement) (content ty : string)
    : Document :=
  {| page_content := content;
     metadata :=
       <["source" := VStr (file_path article)]>
       (<["page" := VInt (ve_page_num elem)]>
       (<["type" := VStr ty]>
       (<["article_id" := VInt (article_id_of article)]>
       (<["user_id" := VInt (article_user_id article)]> ∅)))) |}.

(** Lines 213-217: [chunk.metadata.update(...)] *)
Definition tag_chunk (article : Article) (chunk : Document) : Document :=
  {| page_content := page_content chunk;
     metadata :=
       <["article_id" := VInt (article_id_of article)]>
       (<["user_id" := VInt (article_user_id article)]>
       (<["article_title" := VStr (article_title article)]> (metadata chunk))) |}.

(** [add_document_from_article] *)
Definition add_document_from_article (article : Article) : M bool :=
  try_except
    (found <- call (EvPathExists (file_path article))
                   (fun n => Ok (path_exists W n (file_path article))) ;;
     if negb found then ret false
     else
       docs <- call (EvLoadPdf (file_path article))
                    (fun n => pdf_load W n (file_path article)) ;;
       match docs with
       | [] => ret false
       | _ =>
           let images := extract_images W (file_path article) in
           let figures_tables := extract_figures_tables W (file_path article) in
           let all_docs :=
             docs ++
             map (fun img =>
                    visual_document article img ("[IMAGE] " +:+ ve_text_content img) "image")
                 images ++
             map (fun elem =>
                    visual_document article elem
                      ("[" +:+ Text.upper (ve_type elem) +:+ "] " +:+ ve_caption elem +:+ " " +:+
                       ve_text_content elem)
                      (ve_type elem))
                 figures_tables in
           chunks <- call (EvSplit all_docs) (fun _ => split_documents W all_docs) ;;
           let chunks := map (tag_chunk article) chunks in
           call (EvAddDocuments chunks) (fun n => add_documents W n chunks) ;;
           call EvPersist (fun n => persist W n) ;;
           _index_document_for_lexical_search docs (original_filename article)
             images figures_tables ;;
           _save_lexical_index ;;
           ret true
       end)
    (fun _ => ret false).

End Engine.

Local Close Scope rag_scope.

(* ================================================================== *)
(** * Vocabulary of the specification                                  *)
(* ================================================================== *)

(** ** Spans and blank lines *)

(** [absent a s]: the character [a] does not occur in [s]. *)
Fixpoint absent (a : ascii) (s : string) : bool :=
  match s with
  | EmptyString => true
  | String b t => negb (Ascii.eqb a b) && absent a t
  end.

(** A tag whose first character does not occur again in it: two
    occurrences of such a tag cannot overlap. *)
Definition self_free (p : string) : bool :=
  match p with
  | EmptyString => false
  | String a p' => absent a p'
  end.


(** [blank s]: every character of [s] is white space. *)
Fixpoint blank (s : string) : bool :=
  match s with
  | EmptyString => true
  | String c t => Text.isspace c && blank t
  end.

(** [starts_solid s]: [s] does not begin with white space. *)
Definition starts_solid (s : string) : bool :=
  match s with
  | EmptyString => true
  | String c _ => negb (Text.isspace c)
  end.

(** The specification's reading of [strip]: [out] is [s] without the
    white space at its two ends. *)
Definition stripped (s out : string) : Prop :=
  exists ws1 ws2,
    s = ws1 +:+ out +:+ ws2 /\
    blank ws1 = true /\ blank ws2 = true /\
    starts_solid out = true /\ starts_solid (Text.srev out) = true.



(** ** Scores *)

Definition unit_interval (q : Q) : Prop := (0 <= q /\ q <= 1)%Q.

(** What a judge call answers on [self], and the verdict that the three
    checks make of it. *)
Definition judge_reply (W : World) (prompt : string) (self : RagSystem) : Exc string :=
  ollama_chat W (length (trace self)) (verification_model self) [user_message prompt].

Definition judge_verdict (reply : Exc string) : Verification :=
  match reply with
  | Ok result => verdict result
  | Raise _ => verdict_on_error
  end.

(** [self] after a judge call. *)
Definition after_judge (W : World) (prompt : string) (self : RagSystem) : RagSystem :=
  log (EvChat (verification_model self) [user_message prompt] (judge_reply W prompt self)) self.


(** The composite score of the three verdicts of [verification_result]. *)
Definition composite_of (vr : VerificationResult) : Q :=
  composite_score (score (context_relevance vr)) (score (answer_faithfulness vr))
                  (score (answer_relevance vr)).

Definition scores_in_range (vr : VerificationResult) : Prop :=
  unit_interval (score (context_relevance vr)) /\
  unit_interval (score (answer_faithfulness vr)) /\
  unit_interval (score (answer_relevance vr)).

(** A result whose dict carries verdicts also carries their composite
    score. *)
Definition well_scored (r : Exc AskResult) : Prop :=
  match r with
  | Ok (WithMetadata d) =>
      match verification_details d with
      | Some vr => verification_score d = Some (composite_of vr) /\ scores_in_range vr
      | None => True
      end
  | _ => True
  end.

(** ** Footprints *)

(** [appends P m]: whatever [m] does on [self], it leaves the
    conversation memory and its file as they were, and the calls it makes
    are all in the class [P]. *)
Definition appends {A : Type} (P : Event -> bool) (m : M A) : Prop :=
  forall s,
    conversation_memory (snd (m s)) = conversation_memory s /\
    memory_file (snd (m s)) = memory_file s /\
    exists evs, trace (snd (m s)) = trace s ++ evs /\ forallb P evs = true.

Definition is_search_call (ev : Event) : bool :=
  match ev with
  | EvRetrieve _ | EvSimilaritySearch _ _ => true
  | _ => false
  end.

(** Retrieval calls, and chats of a single user message: the judge and
    the correction pass. *)
Definition is_side_call (ev : Event) : bool :=
  match ev with
  | EvRetrieve _ | EvSimilaritySearch _ _ => true
  | EvChat _ [_] _ => true
  | _ => false
  end.

Definition is_chat (ev : Event) : bool :=
  match ev with EvChat _ _ _ => true | _ => false end.

Definition is_dump (ev : Event) : bool :=
  match ev with EvDump _ _ => true | _ => false end.

(** The calls made between [self] and [self']. *)
Definition new_events (self self' : RagSystem) : list Event :=
  skipn (length (trace self)) (trace self').

(** The generation call of [ask], lines 433-439, raised [e]. *)
Definition generation_call_raised (e : string) (ev : Event) : Prop :=
  exists model prompt,
    ev = EvChat model [system_message; user_message prompt] (Raise e).

(** The two fixed results of [ask]. *)
Definition no_context_result (return_metadata : bool) : AskResult :=
  let response_data :=
    {| r_answer := NO_CONTEXT_ANSWER; verification_status := no_context;
       verification_score := None; verification_details := None |} in
  if return_metadata then WithMetadata response_data else AnswerOnly NO_CONTEXT_ANSWER.

Definition error_result (return_metadata : bool) (e : string) : AskResult :=
  let error_result :=
    {| r_answer := error_message e; verification_status := error;
       verification_score := None; verification_details := None |} in
  if return_metadata then WithMetadata error_result else AnswerOnly (error_message e).

(** The two ways a run of [ask] can go, seen from its generation call. *)
Inductive ask_run (W : World) (rm : bool) (self : RagSystem)
    : Exc AskResult * RagSystem -> Prop :=
| run_without_failure r self' :
    Forall (fun ev => forall e, ~ generation_call_raised e ev) (new_events self self') ->
    well_scored r ->
    ask_run W rm self (r, self')
| run_generation_failed self' evs model prompt e :
    new_events self self' =
      evs ++ [EvChat model [system_message; user_message prompt] (Raise e)] ->
    forallb is_side_call evs = true ->
    conversation_memory self' = conversation_memory self ->
    memory_file self' = memory_file self ->
    ask_run W rm self (Ok (error_result rm e), self').

(** ** Conversation memory *)

(** The entry that [_add_to_conversation_memory] appends on [self]. *)
Definition entry_at (W : World) (question answer : string) (self : RagSystem) : Turn :=
  {| turn_question := question; turn_answer := answer;
     turn_timestamp := time_time W (length (trace self)) |}.

Definition exchange_of (t : Turn) : string * string := (turn_question t, turn_answer t).

(** A run of appends, one [_add_to_conversation_memory] per exchange. *)
Fixpoint add_all (W : World) (exchanges : list (string * string)) : M unit :=
  match exchanges with
  | [] => ret tt
  | (question, answer) :: rest =>
      bind (_add_to_conversation_memory W question answer) (fun _ => add_all W rest)
  end.

(** ** Retrieval and ranking *)

Definition matching (filters : list (string * Value)) (doc : Document) : bool :=
  metadata_matches filters (metadata doc).





(** [r] does not carry the file name [name]. *)
Definition not_named (name : string) (r : Recommendation) : Prop :=
  rec_filename r <> Some name.

(** What a method returns, when it returns, satisfies [P]. *)
Definition returns {A : Type} (P : A -> Prop) (run : Exc A * RagSystem) : Prop :=
  match fst run with
  | Ok a => P a
  | Raise _ => True
  end.

(* ================================================================== *)
(** * A small library, for the worked runs                             *)
(* ================================================================== *)

Definition photosynthesis_text : string :=
  "Photosynthesis converts light energy into chemical energy.".

Definition photosynthesis_question : string := "What does photosynthesis convert?".

(** An uploaded article: the file is stored under a generated name, the
    name it was uploaded with is kept beside it. *)
Definition article1 : Article :=
  {| article_id_of := 1; article_user_id := 7; article_title := "Photosynthesis";
     original_filename := "paper.pdf"; file_path := "uploads/file_3fa9c1.pdf" |}.

(** What [PyPDFLoader] makes of its one page. *)
Definition page1 : Document :=
  {| page_content := photosynthesis_text;
     metadata := <["source" := VStr (file_path article1)]> (<["page" := VInt 0]> ∅) |}.

Definition chunk1 : Document := tag_chunk article1 page1.

(** A chunk of another owner. *)
Definition chunk2 : Document :=
  {| page_content := "Mitochondria release chemical energy.";
     metadata := <["source" := VStr "uploads/file_77b2.pdf"]> (<["user_id" := VInt 8]> ∅) |}.

Definition draft_answer : string := "Light energy into chemical energy.".

(** A world whose vector store holds [docs] and whose models answer as
    [chat] says. *)
Definition library_world (docs : list Document)
    (chat : string -> list Message -> Exc string) : World :=
  {| DEFAULT_SUMMARIZATION_MODEL := "DeepSeek-R1";
     retriever_invoke := fun _ _ => Ok docs;
     similarity_search := fun _ _ _ => Ok docs;
     similarity_search_by_vector := fun _ _ _ => Ok docs;
     embed_query := fun _ _ => Ok [1%Q];
     ollama_chat := fun _ => chat;
     time_time := fun n => inject_Z (Z.of_nat n);
     pickle_dump := fun _ _ => Ok tt;
     article_query_get :=
       fun _ id => Ok (if decide (id = VInt 1) then Some article1 else None);
     requests_get := fun _ _ => Raise "connection refused";
     pytorch_cos_sim := fun _ _ => Ok 1%Q;
     now_year := fun _ => 2026%Z;
     path_exists := fun _ _ => true;
     pdf_load := fun _ _ => Ok [page1];
     extract_images := fun _ => [];
     extract_figures_tables := fun _ => [];
     split_documents := fun docs => Ok docs;
     add_documents := fun _ _ => Ok tt;
     persist := fun _ => Ok tt;
     lexical_dump := fun _ _ => Ok tt |}.

(** The judge scores low and the correction call times out. *)
Definition chat_correction_fails (model : string) (messages : list Message) : Exc string :=
  match messages with
  | [_; _] => Ok ("<think>Let me see.</think>" +:+ draft_answer)
  | [m] =>
      if Text.contains "As a scientific expert" (content m) then Raise "timed out"
      else Ok "[SCORE: 0.2] The answer is not supported by the context."
  | _ => Raise "bad request"
  end.


(** Every call succeeds and the judge scores high. *)
Definition chat_confident (model : string) (messages : list Message) : Exc string :=
  match messages with
  | [_; _] => Ok draft_answer
  | _ => Ok "[SCORE: 0.9] Relevant."
  end.

Definition fresh_system (user : option Z) : RagSystem :=
  {| user_id := user; verification_model := "DeepSeek-R1"; lexical_index := [];
     conversation_memory := []; memory_file := None; trace := [] |}.


(** Sixty exchanges. *)
Definition sixty_exchanges : list (string * string) :=
  map (fun i => ("question " +:+ Text.str_of_nat i, "answer " +:+ Text.str_of_nat i))
      (seq 1 60).

(** Candidates with a repeated file and a repeated title. *)
Definition candidates : list Recommendation :=
  [ lexical_result "a.pdf" 2 "alpha";
    arxiv_result {| entry_published := Some "2026-01-05"; entry_id := "http://arxiv.org/abs/2601.00001";
                    entry_title := "Light harvesting"; entry_summary := "A survey.";
                    entry_link := "http://arxiv.org/abs/2601.00001" |} 2026;
    lexical_result "a.pdf" 1 "alpha again";
    lexical_result "b.pdf" 1 "beta" ].

(* ================================================================== *)
(** * Around the engine: endings of a run, the index, other worlds     *)
(* ================================================================== *)

(** How a run of [ask] ends: with the error result and the memory as it
    was, or with an answer that it has just recorded.  [outcome] is what
    the write of the memory file answered. *)
Inductive ask_outcome (question : string) (rm : bool) (self : RagSystem)
    : Exc AskResult * RagSystem -> Prop :=
| outcome_error e self' :
    conversation_memory self' = conversation_memory self ->
    memory_file self' = memory_file self ->
    forallb (fun ev => negb (is_dump ev)) (new_events self self') = true ->
    ask_outcome question rm self (Ok (error_result rm e), self')
| outcome_answered res self' evs now outcome :
    new_events self self' = evs ++ [EvTime; EvDump (conversation_memory self') outcome] ->
    forallb (fun ev => negb (is_dump ev)) evs = true ->
    conversation_memory self' =
      memory_append (conversation_memory self)
        {| turn_question := question; turn_answer := result_answer res;
           turn_timestamp := now |} ->
    memory_file self' =
      match outcome with
      | Ok _ => Some (conversation_memory self')
      | Raise _ => memory_file self
      end ->
    ask_outcome question rm self (Ok res, self').


(** [d.get(key)] on a dict kept as an association list. *)
Fixpoint dict_lookup {V : Type} (key : string) (d : list (string * V)) : option V :=
  match d with
  | [] => None
  | (k, v) :: t => if String.eqb key k then Some v else dict_lookup key t
  end.

(** The keys of a dict are distinct. *)
Definition dict_wf {V : Type} (d : list (string * V)) : Prop := NoDup (map fst d).

(** The calls of one kind among the calls of a run. *)
Definition count_calls (P : Event -> bool) (evs : list Event) : nat :=
  length (List.filter P evs).

Definition is_search (ev : Event) : bool :=
  match ev with EvSimilaritySearch _ _ => true | _ => false end.

Definition is_http (ev : Event) : bool :=
  match ev with EvHttpGet _ => true | _ => false end.

(** A result that the ArXiv pass may produce. *)
Definition recent_arxiv (r : Recommendation) : Prop :=
  rec_source r = Some "arxiv" /\ rec_filename r = None /\
  exists year, rec_year r = Some year /\ (2024 <= year)%Z.




(** The filters [ask] builds for the owner of an article asking about
    that article. *)
Definition owner_filters (article : Article) : list (string * Value) :=
  search_filters_of (Some (article_user_id article)) (Some (article_id_of article)).

(** A chunk that ingestion has tagged for [article]. *)
Definition tagged_for (article : Article) (chunk : Document) : Prop :=
  matching (owner_filters article) chunk = true /\
  metadata chunk !! "article_title" = Some (VStr (article_title article)).


Definition with_similarity_search (f : nat -> string -> nat -> Exc (list Document))
    (W : World) : World :=
  {| DEFAULT_SUMMARIZATION_MODEL := DEFAULT_SUMMARIZATION_MODEL W;
     retriever_invoke := retriever_invoke W;
     similarity_search := f;
     similarity_search_by_vector := similarity_search_by_vector W;
     embed_query := embed_query W;
     ollama_chat := ollama_chat W;
     time_time := time_time W;
     pickle_dump := pickle_dump W;
     article_query_get := article_query_get W;
     requests_get := requests_get W;
     pytorch_cos_sim := pytorch_cos_sim W;
     now_year := now_year W;
     path_exists := path_exists W;
     pdf_load := pdf_load W;
     extract_images := extract_images W;
     extract_figures_tables := extract_figures_tables W;
     split_documents := split_documents W;
     add_documents := add_documents W;
     persist := persist W;
     lexical_dump := lexical_dump W |}.

Definition with_embed_query (f : nat -> string -> Exc (list Q)) (W : World) : World :=
  {| DEFAULT_SUMMARIZATION_MODEL := DEFAULT_SUMMARIZATION_MODEL W;
     retriever_invoke := retriever_invoke W;
     similarity_search := similarity_search W;
     similarity_search_by_vector := similarity_search_by_vector W;
     embed_query := f;
     ollama_chat := ollama_chat W;
     time_time := time_time W;
     pickle_dump := pickle_dump W;
     article_query_get := article_query_get W;
     requests_get := requests_get W;
     pytorch_cos_sim := pytorch_cos_sim W;
     now_year := now_year W;
     path_exists := path_exists W;
     pdf_load := pdf_load W;
     extract_images := extract_images W;
     extract_figures_tables := extract_figures_tables W;
     split_documents := split_documents W;
     add_documents := add_documents W;
     persist := persist W;
     lexical_dump := lexical_dump W |}.


(** The store times out on the over-fetch of 15 chunks and then serves
    a chunk of another owner. *)
Definition slow_store_world : World :=
  with_similarity_search
    (fun _ _ k => if k =? 15 then Raise "timed out" else Ok [chunk2])
    (library_world [] chat_confident).

(** The embedding model is not reachable. *)
Definition no_embedding_world : World :=
  with_embed_query (fun _ _ => Raise "connection refused")
    (library_world [chunk1] chat_confident).

(* ================================================================== *)
(** * The chat route: what it does to a question before [ask]          *)
(* ================================================================== *)

(** [clean_text] of [backend/utils/helpers.py], [validate_question] of
    [backend/utils/validators.py] and the first lines of [ask_question]
    of [backend/routes/chatbot.py].  The classes [\w], [\s] and the
    letter class of the validator are their ASCII members, so what is
    proved of these functions is stated for ASCII questions. *)

Fixpoint sforall (P : ascii -> bool) (s : string) : bool :=
  match s with
  | EmptyString => true
  | String c t => P c && sforall P t
  end.

Fixpoint sexists (P : ascii -> bool) (s : string) : bool :=
  match s with
  | EmptyString => false
  | String c t => P c || sexists P t
  end.

Definition is_ascii_char (c : ascii) : bool := nat_of_ascii c <? 128.

Definition is_ascii (s : string) : bool := sforall is_ascii_char s.

(** The class [[a-zA-Z]]. *)
Definition isalpha (c : ascii) : bool :=
  let n := nat_of_ascii c in
  ((65 <=? n) && (n <=? 90)) || ((97 <=? n) && (n <=? 122)).

(** The class [\w] of [re], ASCII members. *)
Definition isword (c : ascii) : bool :=
  isalpha c || Text.isdigit c || Ascii.eqb c "_"%char.

(** [re.sub(r'[^cls]', '', s)]: the characters of the class are kept. *)
Fixpoint sfilter (keep : ascii -> bool) (s : string) : string :=
  match s with
  | EmptyString => EmptyString
  | String c t => if keep c then String c (sfilter keep t) else sfilter keep t
  end.

(** [re.sub(r'\s+', ' ', s)]: every maximal run of white space becomes
    one space.  [in_run] says that the character before was white
    space. *)
Fixpoint squeeze_spaces (in_run : bool) (s : string) : string :=
  match s with
  | EmptyString => EmptyString
  | String c t =>
      if Text.isspace c then
        if in_run then squeeze_spaces true t
        else String " "%char (squeeze_spaces true t)
      else String c (squeeze_spaces false t)
  end.

(** [clean_text] *)
Definition clean_text (text : string) : string :=
  match text with
  | EmptyString => EmptyString
  | _ =>
      let text := sfilter (fun c => isword c || Text.isspace c) text in
      let text := squeeze_spaces false text in
      Text.lower (Text.strip text)
  end.

(** [re.search(r'(.)\1{10,}', s)]: eleven or more equal characters in a
    row, of a character that [.] matches, that is any but the line feed.
    [prev] is the character before and [count] the length of its run so
    far. *)
Fixpoint long_run_from (prev : ascii) (count : nat) (s : string) : bool :=
  match s with
  | EmptyString => false
  | String c t =>
      let count := if Ascii.eqb c prev then S count else 1 in
      if (11 <=? count) && negb (Ascii.eqb c "010"%char) then true
      else long_run_from c count t
  end.

Definition has_long_run (s : string) : bool :=
  match s with
  | EmptyString => false
  | String c t => long_run_from c 1 t
  end.

(** The dict [validate_question] returns. *)
Record Validation : Type := mkValidation {
  valid : bool;
  message : string
}.

(** [validate_question] *)
Definition validate_question (question : string) : Validation :=
  match question with
  | EmptyString => {| valid := false; message := "Question vide" |}
  | _ =>
      let question := Text.strip question in
      if String.length question <? 3 then
        {| valid := false; message := "Question trop courte (minimum 3 caractères)" |}
      else if 1000 <? String.length question then
        {| valid := false; message := "Question trop longue (maximum 1000 caractères)" |}
      else if negb (sexists isalpha question) then
        {| valid := false; message := "Question doit contenir au moins une lettre" |}
      else if has_long_run question then
        {| valid := false; message := "Question contient trop de caractères répétitifs" |}
      else {| valid := true; message := "Question valide" |}
  end.

(** Lines 38-60 of [ask_question]: from the [question] field of the
    request to the question handed to [ask], or to the error message of
    the 400 response. *)
Definition ask_question_input (data_question : option string) : Exc string :=
  match data_question with
  | None => Raise "Question manquante"
  | Some raw =>
      let question := Text.strip raw in
      let validation_result := validate_question question in
      if valid validation_result then Ok (clean_text question)
      else Raise (message validation_result)
  end.

(** A character of a text whose white space has been squeezed: a word
    character, or the one space that stands for a run. *)
Definition squeezed_char (c : ascii) : bool :=
  (isword c && negb (Text.isspace c)) || Ascii.eqb c " "%char.

(** [clean_text] before its final [lower()]. *)
Definition squeezed (text : string) : string :=
  Text.strip (squeeze_spaces false (sfilter (fun c => isword c || Text.isspace c) text)).

(** The normal form of a cleaned question: lower-case letters, digits,
    underscores and single spaces between them. *)
Definition clean_char (c : ascii) : bool :=
  let n := nat_of_ascii c in
  ((97 <=? n) && (n <=? 122)) || Text.isdigit c || Ascii.eqb c "_"%char || Ascii.eqb c " "%char.

Fixpoint single_spaced (s : string) : bool :=
  match s with
  | String a ((String b _) as t) =>
      negb (Ascii.eqb a " "%char && Ascii.eqb b " "%char) && single_spaced t
  | _ => true
  end.

Definition clean_form (s : string) : Prop :=
  sforall clean_char s = true /\ single_spaced s = true /\
  starts_solid s = true /\ starts_solid (Text.srev s) = true.

(* ================================================================== *)
(** * Worked values                                                    *)
(* ================================================================== *)

Example basename_ex : Text.basename "uploads/a/b.pdf" = "b.pdf".
Proof. reflexivity. Qed.

Example split_ex : Text.split_ws "  light  energy " = ["light"; "energy"].
Proof. reflexivity. Qed.

Example strip_ex : Text.strip "  a b  " = "a b".
Proof. reflexivity. Qed.

Example str_of_nat_ex : Text.str_of_nat 2024 = "2024".
Proof. reflexivity. Qed.

Example re_sub_ex :
  Text.re_sub_span "<think>" "</think>" "a<think>x</think>b<think>y" = "ab<think>y".
Proof. reflexivity. Qed.

Example parse_score_ex1 : parse_score "ok [SCORE: 0.85] fine" = Qmax 0 (Qmin (85 # 100) 1).
Proof. reflexivity. Qed.

Example parse_score_ex2 : parse_score "[SCORE:7]" = 1%Q.
Proof. reflexivity. Qed.

Example parse_score_ex3 : parse_score "[SCORE: 1.]" = (1 # 2)%Q.
Proof. reflexivity. Qed.

Example parse_score_ex4 : parse_score "[SCORE: x] [SCORE:  0.25]" = (25 # 100)%Q.
Proof. reflexivity. Qed.

(* ================================================================== *)
(** * Facts about the text primitives                                  *)
(* ================================================================== *)

Module TextFacts.
Import Text.

Lemma append_nil (b : string) : "" +:+ b = b.
Proof. reflexivity. Qed.

Lemma append_cons (c : ascii) (a b : string) : String c a +:+ b = String c (a +:+ b).
Proof. reflexivity. Qed.

Lemma append_length (a b : string) :
  String.length (a +:+ b) = String.length a + String.length b.
Proof.
  induction a as [|c a IH]; [reflexivity|].
  rewrite append_cons. simpl. now rewrite IH.
Qed.

Lemma append_assoc (a b c : string) : (a +:+ b) +:+ c = a +:+ (b +:+ c).
Proof.
  induction a as [|x a IH]; [reflexivity|].
  rewrite !append_cons. now rewrite IH.
Qed.

Lemma startswith_app (p r : string) : startswith p (p +:+ r) = Some r.
Proof.
  induction p as [|a p IH]; [reflexivity|].
  rewrite append_cons. simpl. now rewrite Ascii.eqb_refl.
Qed.



Lemma partition_unfold (p s : string) :
  partition p s =
  match startswith p s with
  | Some r => Some (EmptyString, r)
  | None =>
      match s with
      | EmptyString => None
      | String c t =>
          match partition p t with
          | Some (a, r) => Some (String c a, r)
          | None => None
          end
      end
  end.
Proof. destruct s; reflexivity. Qed.




Lemma startswith_blocked (a : ascii) (x p z : string) :
  absent a p = true -> startswith p x = None ->
  startswith p (x +:+ String a z) = None.
Proof.
  revert p; induction x as [|b x IH]; intros p Ha H.
  - destruct p as [|c p]; [discriminate|]. rewrite append_nil. simpl in *.
    apply andb_prop in Ha as [Hc _].
    rewrite Ascii.eqb_sym. now destruct (Ascii.eqb a c).
  - destruct p as [|c p]; [discriminate|]. rewrite append_cons. simpl in *.
    destruct (Ascii.eqb c b); [|reflexivity].
    apply andb_prop in Ha as [_ Ha]. now apply IH.
Qed.

Lemma partition_first (p pre r : string) :
  self_free p = true -> contains p pre = false ->
  partition p (pre +:+ p +:+ r) = Some (pre, r).
Proof.
  intros Hp. unfold contains.
  induction pre as [|b pre IH]; intros H.
  - rewrite append_nil, partition_unfold. now rewrite startswith_app.
  - rewrite partition_unfold in H.
    destruct (startswith p (String b pre)) eqn:E; [discriminate|].
    destruct (partition p pre) as [[? ?]|] eqn:E2; [discriminate|].
    rewrite append_cons, partition_unfold.
    destruct p as [|a p]; [discriminate|].
    replace (startswith (String a p) (String b (pre +:+ String a p +:+ r))) with (@None string).
    + rewrite IH by reflexivity. reflexivity.
    + symmetry. simpl in E |- *. destruct (Ascii.eqb a b); [|reflexivity].
      rewrite append_cons. apply startswith_blocked; assumption.
Qed.

Lemma partition_none_empty (p : string) : p <> "" -> partition p "" = None.
Proof. destruct p; [congruence|reflexivity]. Qed.




Lemma contains_false (p s : string) : contains p s = false -> partition p s = None.
Proof. unfold contains. now destruct (partition p s). Qed.




End TextFacts.

Module StripFacts.
Import Text TextFacts.

Lemma append_empty_r (a : string) : a +:+ "" = a.
Proof. induction a as [|x a IH]; [reflexivity|]. rewrite append_cons. now rewrite IH. Qed.

Lemma srev_onto_spec (s acc : string) : srev_onto s acc = srev s +:+ acc.
Proof.
  unfold srev. revert acc. induction s as [|c s IH]; intros acc; [reflexivity|].
  simpl. rewrite IH. rewrite (IH (String c "")). now rewrite append_assoc.
Qed.

Lemma srev_cons (c : ascii) (s : string) : srev (String c s) = srev s +:+ String c "".
Proof. unfold srev at 1. simpl. apply srev_onto_spec. Qed.

Lemma srev_app (a b : string) : srev (a +:+ b) = srev b +:+ srev a.
Proof.
  induction a as [|c a IH].
  - rewrite append_nil. now rewrite append_empty_r.
  - rewrite append_cons, !srev_cons, IH. now rewrite append_assoc.
Qed.

Lemma srev_involutive (s : string) : srev (srev s) = s.
Proof.
  induction s as [|c s IH]; [reflexivity|].
  rewrite srev_cons, srev_app, IH. reflexivity.
Qed.

Lemma blank_app (a b : string) : blank (a +:+ b) = blank a && blank b.
Proof.
  induction a as [|c a IH]; [reflexivity|].
  rewrite append_cons. simpl. rewrite IH. now rewrite andb_assoc.
Qed.

Lemma blank_srev (s : string) : blank (srev s) = blank s.
Proof.
  induction s as [|c s IH]; [reflexivity|].
  rewrite srev_cons, blank_app, IH. simpl. rewrite andb_true_r. apply andb_comm.
Qed.

Lemma lstrip_blank_app (ws s : string) : blank ws = true -> lstrip (ws +:+ s) = lstrip s.
Proof.
  induction ws as [|c ws IH]; intros H; [reflexivity|].
  simpl in H. apply andb_prop in H as [Hc Hws].
  rewrite append_cons. simpl. rewrite Hc. now apply IH.
Qed.

Lemma lstrip_solid (s : string) : starts_solid s = true -> lstrip s = s.
Proof.
  destruct s as [|c s]; [reflexivity|]. simpl. intros H.
  apply negb_true_iff in H. now rewrite H.
Qed.

Lemma lstrip_spec (s : string) :
  exists ws, s = ws +:+ lstrip s /\ blank ws = true /\ starts_solid (lstrip s) = true.
Proof.
  induction s as [|c s (ws & E & B & S)].
  - exists "". repeat split.
  - simpl. destruct (isspace c) eqn:Hc.
    + exists (String c ws). rewrite append_cons, <- E. repeat split; [|assumption].
      simpl. now rewrite Hc, B.
    + exists "". repeat split. simpl. now rewrite Hc.
Qed.

Lemma strip_spec (s : string) : stripped s (strip s).
Proof.
  unfold stripped, strip, rstrip.
  destruct (lstrip_spec s) as (ws1 & E1 & B1 & S1).
  set (x := lstrip s) in *.
  destruct (lstrip_spec (srev x)) as (ws2 & E2 & B2 & S2).
  set (y := lstrip (srev x)) in *.
  assert (Ex : x = srev y +:+ srev ws2).
  { rewrite <- srev_app, <- E2. now rewrite srev_involutive. }
  exists ws1, (srev ws2). split; [|split; [|split; [|split]]].
  - now rewrite <- Ex.
  - assumption.
  - now rewrite blank_srev.
  - destruct (srev y) as [|c t] eqn:Ey; [reflexivity|].
    rewrite Ex, append_cons in S1. exact S1.
  - now rewrite srev_involutive.
Qed.

Lemma strip_unique (s out : string) : stripped s out -> strip s = out.
Proof.
  intros (ws1 & ws2 & -> & B1 & B2 & S1 & S2).
  unfold strip, rstrip. rewrite lstrip_blank_app by assumption.
  destruct out as [|c t].
  - rewrite append_nil.
    rewrite <- (append_empty_r ws2) at 1. rewrite lstrip_blank_app by assumption.
    reflexivity.
  - rewrite (lstrip_solid (String c t +:+ ws2)) by (rewrite append_cons; exact S1).
    rewrite srev_app. rewrite lstrip_blank_app by now rewrite blank_srev.
    rewrite lstrip_solid by assumption. apply srev_involutive.
Qed.

End StripFacts.

(* ================================================================== *)
(** * Cleaning the model's output                                      *)
(* ================================================================== *)



(* ================================================================== *)
(** * Scores and the component checks                                  *)
(* ================================================================== *)

Lemma parse_score_range (result : string) : unit_interval (parse_score result).
Proof.
  unfold parse_score, unit_interval.
  destruct (re_search_score result) as [g|].
  - split.
    + apply Q.le_max_l.
    + apply Q.max_lub; [discriminate | apply Q.le_min_r].
  - split; discriminate.
Qed.


Lemma judge_run (W : World) (prompt : string) (self : RagSystem) :
  judge W prompt self =
  (Ok (judge_verdict (judge_reply W prompt self)),
   log (EvChat (verification_model self) [user_message prompt] (judge_reply W prompt self)) self).
Proof.
  unfold judge, try_except, bind, get_self, do_ollama_chat, judge_reply, ret. simpl.
  destruct (ollama_chat W _ _ _); reflexivity.
Qed.



(** The weighted sum stays in [0,1]. *)
Lemma composite_score_range (c f r : Q) :
  unit_interval c -> unit_interval f -> unit_interval r ->
  unit_interval (composite_score c f r).
Proof.
  unfold unit_interval, composite_score. intros [? ?] [? ?] [? ?]. split; lra.
Qed.

Lemma composite_score_formula (c f r : Q) :
  (composite_score c f r == (2 # 10) * c + (4 # 10) * f + (4 # 10) * r)%Q.
Proof. unfold composite_score. ring. Qed.

(** C4: the composite score of lines 459-463 is
    0.2 x context_relevance + 0.4 x faithfulness + 0.4 x relevance, and
    for component scores in [0,1] it lies in [0,1]. *)
Theorem composite_score_bounds (c f r : Q) :
  unit_interval c -> unit_interval f -> unit_interval r ->
  (composite_score c f r == (2 # 10) * c + (4 # 10) * f + (4 # 10) * r)%Q /\
  unit_interval (composite_score c f r).
Proof.
  intros Hc Hf Hr. split.
  - apply composite_score_formula.
  - now apply composite_score_range.
Qed.

Lemma composite_score_bounds_witness :
  unit_interval 1 /\ unit_interval (1 # 2) /\ unit_interval 0 /\
  (composite_score 1 (1 # 2) 0 == (2 # 10) * 1 + (4 # 10) * (1 # 2) + (4 # 10) * 0)%Q /\
  unit_interval (composite_score 1 (1 # 2) 0).
Proof.
  assert (H1 : unit_interval 1) by (split; discriminate).
  assert (H2 : unit_interval (1 # 2)) by (split; discriminate).
  assert (H3 : unit_interval 0) by (split; discriminate).
  repeat (split; [assumption|]).
  exact (composite_score_bounds 1 (1 # 2) 0 H1 H2 H3).
Defined.


(* ================================================================== *)
(** * Conversation memory                                              *)
(* ================================================================== *)

Lemma last_n_length {A} (n : nat) (l : list A) : length (last_n n l) = Nat.min n (length l).
Proof. unfold last_n. rewrite length_skipn. lia. Qed.

Lemma last_n_all {A} (n : nat) (l : list A) : length l <= n -> last_n n l = l.
Proof. unfold last_n. intros H. replace (length l - n) with 0 by lia. reflexivity. Qed.

Lemma last_n_app {A} (n : nat) (l1 l2 : list A) :
  n <= length l2 -> last_n n (l1 ++ l2) = last_n n l2.
Proof.
  unfold last_n. intros H. rewrite length_app.
  replace (length l1 + length l2 - n) with (length l1 + (length l2 - n)) by lia.
  rewrite skipn_app. rewrite skipn_all2 by lia. simpl.
  f_equal. lia.
Qed.

Lemma last_n_last_n {A} (n : nat) (l : list A) (x : A) :
  0 < n -> last_n n (last_n n l ++ [x]) = last_n n (l ++ [x]).
Proof.
  intros Hn. unfold last_n. rewrite !length_app, !length_skipn. simpl.
  destruct (Nat.le_gt_cases (length l) n) as [H|H].
  - replace (length l - n) with 0 by lia. simpl. now rewrite Nat.sub_0_r.
  - replace (length l - (length l - n) + 1 - n) with 1 by lia.
    replace (length l + 1 - n) with (1 + (length l - n)) by lia.
    rewrite <- (skipn_skipn 1 (length l - n) (l ++ [x])).
    f_equal. rewrite skipn_app.
    replace (length l - n - length l) with 0 by lia. reflexivity.
Qed.

Lemma memory_append_last_n (memory : list Turn) (entry : Turn) :
  memory_append memory entry = last_n 50 (memory ++ [entry]).
Proof.
  unfold memory_append.
  destruct (50 <? length (memory ++ [entry])) eqn:E; [reflexivity|].
  apply Nat.ltb_ge in E. now rewrite last_n_all.
Qed.

Lemma memory_append_length (memory : list Turn) (entry : Turn) :
  length (memory_append memory entry) <= 50.
Proof. rewrite memory_append_last_n, last_n_length. lia. Qed.


(** After any appends the memory is the last 50 entries of everything
    it was given. *)
Lemma memory_appends (entries memory : list Turn) :
  entries <> [] ->
  fold_left memory_append entries memory = last_n 50 (memory ++ entries).
Proof.
  induction entries as [|e es IH] using rev_ind; intros H; [congruence|].
  rewrite fold_left_app. simpl. rewrite memory_append_last_n.
  destruct es as [|e' es'].
  - reflexivity.
  - rewrite IH by discriminate. rewrite last_n_last_n by lia.
    now rewrite <- app_assoc.
Qed.

Lemma memory_appends_recent (entries memory : list Turn) :
  50 < length entries ->
  fold_left memory_append entries memory = last_n 50 entries /\
  length (fold_left memory_append entries memory) = 50.
Proof.
  intros H. rewrite memory_appends by (destruct entries; [simpl in H; lia|discriminate]).
  rewrite last_n_app by lia. split; [reflexivity|].
  rewrite last_n_length. lia.
Qed.


Lemma composite_score_corners :
  (composite_score 1 1 1 == 1)%Q /\ (composite_score 0 0 0 == 0)%Q.
Proof. split; reflexivity. Qed.

(** On binary64 floats the two corners come out exact as well: with the
    constants 0.2 and 0.4 rounded as Python rounds them, the sum at
    (1, 1, 1) is 1.0. *)
Example composite_score_binary64_corners :
  composite_score_binary64 1 1 1 = 1%float /\
  composite_score_binary64 0 0 0 = 0%float.
Proof. split; reflexivity. Qed.

(** ** The method on [self] *)

Lemma add_to_conversation_memory_run (W : World) (question answer : string) (self : RagSystem) :
  exists self' outcome,
    _add_to_conversation_memory W question answer self = (Ok tt, self') /\
    conversation_memory self' =
      memory_append (conversation_memory self) (entry_at W question answer self) /\
    trace self' = trace self ++ [EvTime; EvDump (conversation_memory self') outcome].
Proof.
  unfold _add_to_conversation_memory, _save_conversation_memory, bind, try_except,
    do_time_time, modify, get_self, do_pickle_dump. simpl.
  destruct (pickle_dump W _ _) as [[]|] eqn:E; eexists _, _; simpl;
    (split; [reflexivity|]); (split; [reflexivity|]).
  all: unfold log, set_memory_file, set_conversation_memory; simpl;
    rewrite <- app_assoc; reflexivity.
Qed.

Lemma add_all_run (W : World) (exchanges : list (string * string)) (self : RagSystem) :
  exists self' turns,
    add_all W exchanges self = (Ok tt, self') /\
    map exchange_of turns = exchanges /\
    conversation_memory self' = fold_left memory_append turns (conversation_memory self).
Proof.
  revert self. induction exchanges as [|[q a] rest IH]; intros self.
  - exists self, []. repeat split.
  - destruct (add_to_conversation_memory_run W q a self) as (s1 & outcome & R1 & M1 & _).
    destruct (IH s1) as (s2 & turns & R2 & E2 & M2).
    exists s2, (entry_at W q a self :: turns). split; [|split].
    + simpl. unfold bind at 1. now rewrite R1.
    + simpl. now rewrite E2.
    + simpl. now rewrite M2, M1.
Qed.

(** C3: after any non-empty sequence of appends the conversation memory
    holds the most recent entries of everything it was given, at most
    50 of them; and after more than 50 appends it holds exactly the 50
    most recent of the appended entries, in the order they were
    appended. *)
Theorem conversation_memory_capped (W : World) (exchanges : list (string * string))
    (self : RagSystem) :
  exchanges <> [] ->
  exists self' turns,
    add_all W exchanges self = (Ok tt, self') /\
    map exchange_of turns = exchanges /\
    conversation_memory self' = last_n 50 (conversation_memory self ++ turns) /\
    length (conversation_memory self') <= 50 /\
    (50 < length exchanges ->
     conversation_memory self' = last_n 50 turns /\
     length (conversation_memory self') = 50).
Proof.
  intros Hne.
  destruct (add_all_run W exchanges self) as (self' & turns & R & E & Hm).
  exists self', turns.
  assert (Ht : turns <> []).
  { intros ->. simpl in E. congruence. }
  rewrite (memory_appends turns _ Ht) in Hm.
  split; [exact R|]. split; [exact E|]. split; [exact Hm|]. split.
  - rewrite Hm, last_n_length. lia.
  - intros Hlen.
    assert (Hl : 50 <= length turns).
    { rewrite <- E in Hlen. rewrite length_map in Hlen. lia. }
    rewrite Hm, (last_n_app 50 _ turns Hl). split; [reflexivity|].
    rewrite last_n_length. lia.
Qed.

Lemma conversation_memory_capped_witness :
  sixty_exchanges <> [] /\
  exists self' turns,
    add_all (library_world [] chat_confident) sixty_exchanges (fresh_system None)
      = (Ok tt, self') /\
    map exchange_of turns = sixty_exchanges /\
    conversation_memory self' = last_n 50 turns /\
    length (conversation_memory self') = 50.
Proof.
  assert (H : sixty_exchanges <> []) by discriminate.
  split; [exact H|].
  destruct (conversation_memory_capped (library_world [] chat_confident) sixty_exchanges
              (fresh_system None) H) as (self' & turns & R & E & _ & _ & Hlong).
  exists self', turns. split; [exact R|]. split; [exact E|].
  apply Hlong. vm_compute. lia.
Defined.

Example sixty_appends_keep_the_last_fifty :
  map exchange_of
      (conversation_memory
         (snd (add_all (library_world [] chat_confident) sixty_exchanges (fresh_system None))))
  = skipn 10 sixty_exchanges.
Proof. vm_compute. reflexivity. Qed.

(** No more than the last five exchanges enter the prompt. *)
Lemma memory_window_length (memory : list Turn) : length (last_n 5 memory) <= 5.
Proof. rewrite last_n_length. lia. Qed.

(* ================================================================== *)
(** * Filtered retrieval                                               *)
(* ================================================================== *)



Lemma metadata_matches_spec (filters : list (string * Value)) (md : gmap string Value) :
  metadata_matches filters md = true <->
  Forall (fun kv => dict_get md (fst kv) = snd kv) filters.
Proof.
  induction filters as [|[key value] rest IH]; simpl.
  - split; [constructor|reflexivity].
  - destruct (decide (dict_get md key = value)) as [E|E].
    + rewrite IH. split; [now constructor|now inversion 1].
    + split; [discriminate|]. inversion 1; subst. simpl in *. contradiction.
Qed.

(** For a value other than [None], [d.get(key) == value] says that the
    key is present with that value. *)
Lemma dict_get_exact (md : gmap string Value) (key : string) (value : Value) :
  value <> VNone -> (dict_get md key = value <-> md !! key = Some value).
Proof.
  unfold dict_get. intros H. destruct (md !! key) as [v|]; simpl.
  - split; congruence.
  - split; [congruence|discriminate].
Qed.





(** The fallback of [_filtered_search]: when the over-fetch raises, the
    answer is an unfiltered search for [k] chunks. *)
Lemma filtered_search_fallback (W : World) (question : string)
    (filters : list (string * Value)) (k : nat) (self : RagSystem) (e : string) :
  similarity_search W (length (trace self)) question (k * 3) = Raise e ->
  _filtered_search W question filters k self =
    do_similarity_search W question k (log (EvSimilaritySearch question (k * 3)) self).
Proof.
  intros H. unfold _filtered_search, try_except, bind, do_similarity_search at 1, call.
  now rewrite H.
Qed.

(* ================================================================== *)
(** * What a method touches                                            *)
(* ================================================================== *)

Section Effects.
Context {P : Event -> bool}.

Lemma appends_ret {A} (a : A) : appends P (ret a).
Proof. intros s. simpl. repeat split. exists []. now rewrite app_nil_r. Qed.

Lemma appends_raise {A} (e : string) : appends P (@raise A e).
Proof. intros s. simpl. repeat split. exists []. now rewrite app_nil_r. Qed.

Lemma appends_get_self : appends P get_self.
Proof. intros s. simpl. repeat split. exists []. now rewrite app_nil_r. Qed.

Lemma appends_lift_exc {A} (r : Exc A) : appends P (lift_exc r).
Proof. intros s. simpl. repeat split. exists []. now rewrite app_nil_r. Qed.

Lemma appends_then {A B} (m : M A) (k : Exc A -> M B) :
  appends P m -> (forall r, appends P (k r)) ->
  appends P (fun s => k (fst (m s)) (snd (m s))).
Proof.
  intros Hm Hk s. destruct (Hm s) as (M1 & F1 & evs1 & T1 & P1).
  destruct (Hk (fst (m s)) (snd (m s))) as (M2 & F2 & evs2 & T2 & P2).
  split; [congruence|]. split; [congruence|].
  exists (evs1 ++ evs2). split.
  - rewrite T2, T1. now rewrite <- app_assoc.
  - rewrite forallb_app. now rewrite P1, P2.
Qed.

Lemma appends_bind {A B} (m : M A) (f : A -> M B) :
  appends P m -> (forall a, appends P (f a)) -> appends P (bind m f).
Proof.
  intros Hm Hf.
  pose proof (appends_then m
    (fun r => match r with Ok a => f a | Raise e => raise e end) Hm) as H.
  intros s. specialize (H ltac:(intros [a|e]; [apply Hf | apply appends_raise]) s).
  revert H. unfold bind. cbv beta. destruct (m s) as [[a|e] s1]; trivial.
Qed.

Lemma appends_try_except {A} (m : M A) (h : string -> M A) :
  appends P m -> (forall e, appends P (h e)) -> appends P (try_except m h).
Proof.
  intros Hm Hh.
  pose proof (appends_then m
    (fun r => match r with Ok a => ret a | Raise e => h e end) Hm) as H.
  intros s. specialize (H ltac:(intros [a|e]; [apply appends_ret | apply Hh]) s).
  revert H. unfold try_except. cbv beta. destruct (m s) as [[a|e] s1]; trivial.
Qed.

Lemma appends_call {A} (ev : Event) (answer : nat -> Exc A) :
  P ev = true -> appends P (call ev answer).
Proof.
  intros H s. simpl. repeat split. exists [ev]. split; [reflexivity|].
  simpl. now rewrite H.
Qed.

Lemma appends_chat (W : World) (model : string) (messages : list Message) :
  (forall r, P (EvChat model messages r) = true) ->
  appends P (do_ollama_chat W model messages).
Proof.
  intros H s. simpl. repeat split. eexists [_]. split; [reflexivity|].
  simpl. now rewrite H.
Qed.

End Effects.

Lemma appends_weaken {A} (P Q : Event -> bool) (m : M A) :
  (forall ev, P ev = true -> Q ev = true) -> appends P m -> appends Q m.
Proof.
  intros HPQ Hm s. destruct (Hm s) as (M1 & F1 & evs & T1 & P1).
  repeat split; try assumption. exists evs. split; [assumption|].
  rewrite forallb_forall in *. auto.
Qed.

Lemma filtered_search_appends (W : World) q filters k :
  appends is_search_call (_filtered_search W q filters k).
Proof.
  apply appends_try_except.
  - apply appends_bind; [now apply appends_call|]. intros. apply appends_ret.
  - intros. now apply appends_call.
Qed.

Lemma retrieve_appends (W : World) q filters :
  appends is_search_call (retrieve W q filters).
Proof.
  unfold retrieve. destruct (nonempty filters).
  - apply filtered_search_appends.
  - now apply appends_call.
Qed.

Lemma judge_appends (W : World) prompt : appends is_side_call (judge W prompt).
Proof.
  apply appends_try_except.
  - apply appends_bind; [apply appends_get_self|]. intros self.
    apply appends_bind; [now apply appends_chat|]. intros. apply appends_ret.
  - intros. apply appends_ret.
Qed.

Lemma check_context_appends (W : World) q context docs :
  appends is_side_call (check_context W q context docs).
Proof.
  unfold check_context.
  apply appends_bind; [apply judge_appends|]. intros cv.
  destruct (Qle_bool _ _); [|apply appends_ret].
  apply appends_bind; [now apply appends_call|]. intros more.
  destruct (nonempty_str _); [|apply appends_ret].
  apply appends_bind; [apply judge_appends|]. intros. apply appends_ret.
Qed.

Lemma suggest_improved_answer_appends (W : World) q context answer vr :
  appends is_side_call (_suggest_improved_answer W q context answer vr).
Proof.
  apply appends_try_except.
  - apply appends_bind; [now apply appends_chat|]. intros. apply appends_ret.
  - intros. apply appends_ret.
Qed.

Lemma check_answer_appends (W : World) q context answer cv thr :
  appends is_side_call (check_answer W q context answer cv thr).
Proof.
  unfold check_answer.
  apply appends_bind; [apply judge_appends|]. intros fv.
  apply appends_bind; [apply judge_appends|]. intros rv.
  destruct (Qle_bool _ _); [apply appends_ret|].
  apply appends_bind; [apply suggest_improved_answer_appends|]. intros imp.
  destruct (nonempty_str imp); apply appends_ret.
Qed.

Lemma build_memory_context_run (s : RagSystem) :
  exists text, _build_memory_context s = (Ok text, s).
Proof.
  unfold _build_memory_context, bind, get_self.
  destruct (conversation_memory s); eexists; reflexivity.
Qed.

Lemma new_events_app (s s' : RagSystem) (evs : list Event) :
  trace s' = trace s ++ evs -> new_events s s' = evs.
Proof.
  unfold new_events. intros ->. rewrite skipn_app, skipn_all, Nat.sub_diag. reflexivity.
Qed.

(** C2: when retrieval returns no chunk, [ask] returns the fixed
    fallback answer with status [no_context] (the answer alone without
    [return_metadata]), and none of the calls it makes is a chat call:
    no model, generative or judge, is invoked. *)
Theorem ask_no_context (W : World) (question : string) (article_id : option Z)
    (return_metadata : bool) (validation_threshold : Q) (self self1 : RagSystem) :
  retrieve W question (search_filters_of (user_id self) article_id) self = (Ok [], self1) ->
  exists self',
    ask W question article_id return_metadata validation_threshold self =
      (Ok (no_context_result return_metadata), self') /\
    forallb (fun ev => negb (is_chat ev)) (new_events self self') = true.
Proof.
  intros H.
  destruct (retrieve_appends W question (search_filters_of (user_id self) article_id) self)
    as (_ & _ & evs & T & Pevs).
  rewrite H in T. simpl in T.
  destruct (add_to_conversation_memory_run W question NO_CONTEXT_ANSWER self1)
    as (self' & outcome & R & _ & T').
  exists self'. split.
  - unfold ask, try_except, bind at 1, get_self. cbv beta iota.
    unfold bind at 1. rewrite H. cbv beta iota.
    unfold bind at 1. simpl r_answer. rewrite R. reflexivity.
  - rewrite (new_events_app self self' (evs ++ [EvTime; EvDump (conversation_memory self') outcome])).
    + rewrite forallb_app. simpl. rewrite andb_true_r.
      rewrite forallb_forall in *. intros ev Hin. specialize (Pevs ev Hin).
      now destruct ev.
    + rewrite T', T. now rewrite <- app_assoc.
Qed.

Lemma judge_verdict_range (reply : Exc string) : unit_interval (score (judge_verdict reply)).
Proof.
  destruct reply; simpl; [apply parse_score_range | split; discriminate].
Qed.

Lemma check_context_score (W : World) q context docs (s : RagSystem) :
  match fst (check_context W q context docs s) with
  | Ok cc => unit_interval (score (snd cc))
  | Raise _ => True
  end.
Proof.
  unfold check_context, _verify_context_relevance, bind at 1. rewrite judge_run.
  destruct (Qle_bool _ _); [|apply judge_verdict_range].
  unfold bind at 1. destruct (do_similarity_search W q 5 _) as [[more|e] s1]; [|exact I].
  destruct (nonempty_str _); [|apply judge_verdict_range].
  unfold bind. rewrite judge_run. apply judge_verdict_range.
Qed.

Lemma suggest_improved_answer_run (W : World) q context answer vr (s : RagSystem) :
  let prompt := correction_prompt q context answer (Text.join "; " (issues_of vr)) in
  let reply := ollama_chat W (length (trace s)) (DEFAULT_SUMMARIZATION_MODEL W)
                 [user_message prompt] in
  _suggest_improved_answer W q context answer vr s =
  (Ok (match reply with Ok response => _clean_think_blocks response | Raise _ => answer end),
   log (EvChat (DEFAULT_SUMMARIZATION_MODEL W) [user_message prompt] reply) s).
Proof.
  unfold _suggest_improved_answer, try_except, bind, do_ollama_chat, ret. simpl.
  destruct (ollama_chat W _ _ _); reflexivity.
Qed.

Lemma check_answer_result (W : World) q context answer cv thr (s : RagSystem) :
  unit_interval (score cv) ->
  match fst (check_answer W q context answer cv thr s) with
  | Ok (vr, _, _, final_score) => final_score = composite_of vr /\ scores_in_range vr
  | Raise _ => False
  end.
Proof.
  intros Hcv.
  unfold check_answer, _verify_answer_faithfulness, _verify_answer_relevance.
  unfold bind at 1. rewrite judge_run. unfold bind at 1. rewrite judge_run.
  set (fv := judge_verdict _). set (rv := judge_verdict _).
  assert (R : scores_in_range {| context_relevance := cv; answer_faithfulness := fv;
                                 answer_relevance := rv |}).
  { repeat split; try apply Hcv; apply judge_verdict_range. }
  destruct (Qle_bool _ _); [now split|].
  unfold bind. rewrite suggest_improved_answer_run.
  destruct (nonempty_str _); now split.
Qed.

Lemma side_call_not_generation (ev : Event) (e : string) :
  is_side_call ev = true -> ~ generation_call_raised e ev.
Proof. intros H (model & prompt & ->). discriminate. Qed.

Lemma search_is_side (ev : Event) : is_search_call ev = true -> is_side_call ev = true.
Proof. now destruct ev. Qed.

Lemma Forall_side (evs : list Event) :
  forallb is_side_call evs = true ->
  Forall (fun ev => forall e, ~ generation_call_raised e ev) evs.
Proof.
  rewrite forallb_forall. intros H. apply List.Forall_forall.
  intros ev Hin e. apply side_call_not_generation. auto.
Qed.

Lemma well_scored_error (rm : bool) (e : string) : well_scored (Ok (error_result rm e)).
Proof. now destruct rm. Qed.

Lemma ask_runs (W : World) q aid rm thr self :
  ask_run W rm self (ask W q aid rm thr self).
Proof.
  unfold ask, try_except, bind at 1, get_self. cbv beta iota.
  unfold bind at 1.
  pose proof (appends_weaken _ _ _ search_is_side
                (retrieve_appends W q (search_filters_of (user_id self) aid)) self) as HA.
  destruct (retrieve W q (search_filters_of (user_id self) aid) self) as [[docs|e1] s1].
  2:{ simpl in HA. destruct HA as (_ & _ & evs & T & Pevs). simpl.
      apply run_without_failure; [|apply well_scored_error].
      rewrite (new_events_app _ _ _ T). now apply Forall_side. }
  simpl in HA. destruct HA as (M1 & F1 & evs1 & T1 & P1).
  destruct docs as [|d ds].
  { unfold bind at 1.
    destruct (add_to_conversation_memory_run W q NO_CONTEXT_ANSWER s1)
      as (s2 & outcome & R & _ & T2).
    simpl r_answer. rewrite R. simpl. apply run_without_failure; [|now destruct rm].
    rewrite (new_events_app self s2 (evs1 ++ [EvTime; EvDump (conversation_memory s2) outcome])).
    - apply Forall_app. split; [now apply Forall_side|].
      repeat constructor; intros e (m & p & E); discriminate.
    - rewrite T2, T1. now rewrite <- app_assoc. }
  set (context := Text.join LF2 (concat (map context_parts_of (d :: ds)))).
  unfold bind at 1.
  match goal with
  | |- context [ (if rm then ?a else ?b) s1 ] =>
      assert (HB : appends is_side_call (if rm then a else b))
        by (destruct rm;
            [apply appends_bind; [apply check_context_appends | intros; apply appends_ret]
            | apply appends_ret]);
      specialize (HB s1);
      assert (SB : match fst ((if rm then a else b) s1) with
                   | Ok checked =>
                       match snd checked with
                       | Some cv => unit_interval (score cv)
                       | None => True
                       end
                   | Raise _ => True
                   end)
        by (destruct rm; [|exact I];
            pose proof (check_context_score W q context (d :: ds) s1) as SB;
            unfold bind;
            destruct (check_context W q context (d :: ds) s1) as [[cc|?] ?]; exact SB);
      destruct ((if rm then a else b) s1) as [[checked|e2] s2]
  end; simpl in HB, SB; destruct HB as (M2 & F2 & evs2 & T2 & P2).
  2:{ simpl. apply run_without_failure; [|apply well_scored_error].
      rewrite (new_events_app self s2 (evs1 ++ evs2)).
      - apply Forall_side. rewrite forallb_app. now rewrite P1, P2.
      - rewrite T2, T1. now rewrite <- app_assoc. }
  unfold bind at 1.
  destruct (build_memory_context_run s2) as (memory_context & ->).
  unfold bind at 1, do_ollama_chat at 1. cbv beta zeta.
  match goal with
  | |- context [ EvChat _ [system_message; user_message ?p] _ ] => set (prompt := p)
  end.
  destruct (ollama_chat W (length (trace s2)) (DEFAULT_SUMMARIZATION_MODEL W)
              [system_message; user_message prompt]) as [response|e3].
  2:{ simpl. apply (run_generation_failed W rm self _ (evs1 ++ evs2)
                      (DEFAULT_SUMMARIZATION_MODEL W) prompt e3).
      - apply new_events_app. simpl. rewrite T2, T1. now rewrite <- !app_assoc.
      - rewrite forallb_app. now rewrite P1, P2.
      - simpl. congruence.
      - simpl. congruence. }
  set (gen := EvChat (DEFAULT_SUMMARIZATION_MODEL W)
                [system_message; user_message prompt] (Ok response)).
  set (s3 := log gen s2).
  assert (T3 : trace s3 = trace self ++ evs1 ++ evs2 ++ [gen]).
  { unfold s3. simpl. rewrite T2, T1. now rewrite <- !app_assoc. }
  clearbody s3.
  assert (G3 : forall e, ~ generation_call_raised e gen).
  { intros e (m & p & E). discriminate. }
  clearbody gen.
  unfold bind at 1.
  match goal with
  | |- context [ (if rm then ?a else ?b) s3 ] =>
      assert (HD : appends is_side_call (if rm then a else b))
        by (destruct rm;
            [destruct (snd checked);
             [apply appends_bind;
              [apply check_answer_appends
              | intros [[[? ?] ?] ?]; apply appends_ret]
             | apply appends_raise]
            | apply appends_ret]);
      specialize (HD s3);
      assert (SD : match fst ((if rm then a else b) s3) with
                   | Ok (Some vr, _, _, final_score) =>
                       final_score = composite_of vr /\ scores_in_range vr
                   | _ => True
                   end)
        by (destruct rm; [|exact I];
            destruct (snd checked) as [cv|]; [|exact I];
            pose proof (check_answer_result W q (fst checked)
                          (_clean_think_blocks response) cv thr s3 SB) as SD;
            unfold bind;
            destruct (check_answer W q (fst checked) (_clean_think_blocks response)
                        cv thr s3) as [[[[[? ?] ?] ?]|?] ?]; [exact SD|exact I]);
      destruct ((if rm then a else b) s3) as [[verdict|e4] s4]
  end; simpl in HD, SD; destruct HD as (M4 & F4 & evs4 & T4 & P4).
  2:{ simpl. apply run_without_failure; [|apply well_scored_error].
      rewrite (new_events_app self s4 (evs1 ++ evs2 ++ [gen] ++ evs4)).
      - repeat (apply Forall_app; split); try now apply Forall_side.
        now repeat constructor.
      - rewrite T4, T3. now rewrite <- !app_assoc. }
  destruct verdict as [[[verification_result final_answer] status] final_score].
  unfold bind at 1.
  destruct (add_to_conversation_memory_run W q final_answer s4)
    as (s5 & outcome & R & _ & T5).
  rewrite R. simpl. apply run_without_failure.
  - rewrite (new_events_app self s5
               (evs1 ++ evs2 ++ [gen] ++ evs4 ++
                [EvTime; EvDump (conversation_memory s5) outcome])).
    + repeat (apply Forall_app; split); try now apply Forall_side.
      * now repeat constructor.
      * repeat constructor; intros e (m & p & E); discriminate.
    + rewrite T5, T4, T3. now rewrite <- !app_assoc.
  - destruct rm; [|exact I]. simpl.
    destruct verification_result as [vr|]; [|exact I].
    destruct SD as [-> ?]. now split.
Qed.


(** X18: the score [ask] returns with its verdicts is their composite,
    and it lies in [0,1]. *)
Theorem ask_composite_score (W : World) (question : string) (article_id : option Z)
    (return_metadata : bool) (validation_threshold : Q) (self : RagSystem)
    (d : ResponseData) (vr : VerificationResult) :
  fst (ask W question article_id return_metadata validation_threshold self)
    = Ok (WithMetadata d) ->
  verification_details d = Some vr ->
  exists final_score,
    verification_score d = Some final_score /\
    (final_score == (2 # 10) * score (context_relevance vr) +
                    (4 # 10) * score (answer_faithfulness vr) +
                    (4 # 10) * score (answer_relevance vr))%Q /\
    unit_interval final_score.
Proof.
  intros Hr Hd.
  destruct (ask_runs W question article_id return_metadata validation_threshold self)
    as [r self' _ Hs | self' evs model prompt e0 E Pevs Hm Hf]; simpl in Hr.
  - subst r. simpl in Hs. rewrite Hd in Hs. destruct Hs as [Hs (Hc & Hf & Ha)].
    exists (composite_of vr). split; [assumption|].
    unfold composite_of. split.
    + apply composite_score_formula.
    + now apply composite_score_range.
  - inversion Hr as [Hr']. destruct return_metadata; [|discriminate].
    inversion Hr'; subst d. discriminate.
Qed.

Lemma ask_no_context_witness :
  retrieve (library_world [] chat_confident) photosynthesis_question
    (search_filters_of (user_id (fresh_system None)) None) (fresh_system None)
    = (Ok [], log (EvRetrieve photosynthesis_question) (fresh_system None)) /\
  exists self',
    ask (library_world [] chat_confident) photosynthesis_question None true (7 # 10)
      (fresh_system None)
      = (Ok (no_context_result true), self') /\
    forallb (fun ev => negb (is_chat ev)) (new_events (fresh_system None) self') = true.
Proof.
  split; [reflexivity|].
  exact (ask_no_context (library_world [] chat_confident) photosynthesis_question None true
           (7 # 10) (fresh_system None)
           (log (EvRetrieve photosynthesis_question) (fresh_system None)) eq_refl).
Defined.

(** The same with the owner's filter, where retrieval is
    [_filtered_search] and no chunk of the owner is found. *)
Example ask_no_context_filtered :
  fst (ask (library_world [chunk2] chat_confident) photosynthesis_question None true (7 # 10)
         (fresh_system (Some 7%Z)))
  = Ok (no_context_result true).
Proof. vm_compute. reflexivity. Qed.



Lemma ask_composite_score_example :
  exists d vr,
    fst (ask (library_world [chunk1] chat_confident) photosynthesis_question None true
           (7 # 10) (fresh_system (Some 7%Z))) = Ok (WithMetadata d) /\
    verification_details d = Some vr /\
    verification_status d = validated /\
    verification_score d = Some (composite_of vr).
Proof. eexists _, _. vm_compute. repeat split. Qed.

(* ================================================================== *)
(** * The correction pass                                              *)
(* ================================================================== *)

(** When its model call raises, [_suggest_improved_answer] hands back the
    draft it was asked to correct. *)
Lemma suggest_improved_answer_on_error (W : World) (question context answer : string)
    (vr : VerificationResult) (self : RagSystem) (e : string) :
  ollama_chat W (length (trace self)) (DEFAULT_SUMMARIZATION_MODEL W)
    [user_message (correction_prompt question context answer (Text.join "; " (issues_of vr)))]
    = Raise e ->
  fst (_suggest_improved_answer W question context answer vr self) = Ok answer.
Proof.
  intros H. rewrite suggest_improved_answer_run. cbv zeta. now rewrite H.
Qed.

(** What lines 465-472 make of a draft whose score is below the
    threshold and whose correction call raises: the draft is returned,
    and it is reported [corrected] unless it is empty. *)
Lemma check_answer_on_correction_error (W : World) (question context answer : string)
    (cv : Verification) (validation_threshold : Q) (self : RagSystem) (e : string) :
  let self1 := after_judge W (faithfulness_prompt context answer) self in
  let self2 := after_judge W (relevance_prompt question answer) self1 in
  let vr :=
    {| context_relevance := cv;
       answer_faithfulness :=
         judge_verdict (judge_reply W (faithfulness_prompt context answer) self);
       answer_relevance :=
         judge_verdict (judge_reply W (relevance_prompt question answer) self1) |} in
  Qle_bool validation_threshold (composite_of vr) = false ->
  ollama_chat W (length (trace self2)) (DEFAULT_SUMMARIZATION_MODEL W)
    [user_message (correction_prompt question context answer (Text.join "; " (issues_of vr)))]
    = Raise e ->
  fst (check_answer W question context answer cv validation_threshold self) =
    Ok (vr, answer, (if nonempty_str answer then corrected else needs_improvement),
        composite_of vr).
Proof.
  intros self1 self2 vr Hlow Hraise. subst self1 self2 vr.
  unfold after_judge, composite_of in *.
  cbn [context_relevance answer_faithfulness answer_relevance] in *.
  unfold check_answer, _verify_answer_faithfulness, _verify_answer_relevance.
  unfold bind at 1. rewrite judge_run. unfold bind at 1. rewrite judge_run.
  cbv zeta. rewrite Hlow. unfold bind. rewrite suggest_improved_answer_run. cbv zeta.
  rewrite Hraise. now destruct (nonempty_str answer).
Qed.

(** C1, at a failing input: the three checks score 0.2, below the
    threshold 0.7, and the correction call raises.  [ask] returns the
    draft answer, and reports it as [corrected]. *)
Theorem ask_correction_failure_reported_corrected :
  let run := ask (library_world [chunk1] chat_correction_fails) photosynthesis_question
               None true (7 # 10) (fresh_system (Some 7%Z)) in
  (exists model prompt,
     In (EvChat model [user_message prompt] (Raise "timed out")) (trace (snd run)) /\
     Text.contains "As a scientific expert, correct the following answer" prompt = true) /\
  exists d,
    fst run = Ok (WithMetadata d) /\
    r_answer d = draft_answer /\
    verification_status d = corrected /\
    verification_score d = Some (composite_score (2 # 10) (2 # 10) (2 # 10)) /\
    Qle_bool (7 # 10) (composite_score (2 # 10) (2 # 10) (2 # 10)) = false.
Proof.
  cbv zeta. split.
  - eexists _, _. split.
    + vm_compute. do 6 right. left. reflexivity.
    + vm_compute. reflexivity.
  - eexists. vm_compute. repeat split.
Qed.

(* ================================================================== *)
(** * Reranking                                                        *)
(* ================================================================== *)

Section SortFacts.
Context {A : Type} (key : A -> Q).



Lemma insert_desc_perm (x : A) (l : list A) :
  Permutation (insert_desc key Qltb x l) (x :: l).
Proof.
  induction l as [|y t IH]; simpl; [reflexivity|].
  destruct (Qltb (key x) (key y)); [|reflexivity].
  rewrite IH. apply perm_swap.
Qed.

Lemma sort_desc_perm (l : list A) : Permutation (sort_desc key Qltb l) l.
Proof.
  induction l as [|x t IH]; simpl; [reflexivity|].
  rewrite insert_desc_perm. now rewrite IH.
Qed.




End SortFacts.

(** ** Deduplication *)



Lemma unique_loop_sublist (results : list Recommendation) (seen : gset string) :
  sublist (unique_loop results seen) results.
Proof.
  revert seen. induction results as [|r rest IH]; intros seen; simpl; [constructor|].
  destruct (identifier_of r) as [[|c t]|]; try (apply sublist_cons, IH).
  destruct (bool_decide _); [apply sublist_cons, IH | apply sublist_skip, IH].
Qed.



(** ** Scoring *)






(* ================================================================== *)
(** * Recommendations                                                  *)
(* ================================================================== *)

Local Arguments is_current : simpl never.

Lemma is_current_false (name filename : string) :
  name <> "" -> is_current (Some name) filename = false -> filename <> name.
Proof.
  intros Hne H. destruct name as [|c t]; [congruence|].
  unfold is_current in H. now apply String.eqb_neq in H.
Qed.

Lemma vector_loop_excludes (W : World) (name : string) (docs : list Document) :
  name <> "" ->
  forall results s,
    Forall (not_named name) results ->
    returns (Forall (not_named name)) (vector_loop W (Some name) docs results s).
Proof.
  intros Hne. induction docs as [|doc rest IH]; intros results s Hres.
  - exact Hres.
  - simpl. destruct (metadata doc !! "source") as [[| |source]|];
      try (unfold returns; simpl; exact I).
    + destruct (is_current (Some name) (Text.basename source)) eqn:E; [now apply IH|].
      unfold returns, bind.
      match goal with |- context [ fst (let (_, _) := ?m s in _) ] =>
        destruct (m s) as [[article|e] s1] end; [|exact I].
      apply IH. apply Forall_app. split; [assumption|].
      constructor; [|constructor]. unfold not_named. simpl.
      intros H. inversion H. now apply (is_current_false name _ Hne E).
    + now apply IH.
Qed.

Lemma merge_lexical_excludes (name : string) (lexical_results : list Recommendation) :
  name <> "" ->
  forall results,
    Forall (not_named name) results ->
    match merge_lexical (Some name) lexical_results results with
    | Ok l => Forall (not_named name) l
    | Raise _ => True
    end.
Proof.
  intros Hne. induction lexical_results as [|r rest IH]; intros results Hres.
  - exact Hres.
  - simpl. destruct (rec_filename r) as [filename|] eqn:Ef; [|exact I].
    destruct (is_current (Some name) filename) eqn:E; [now apply IH|].
    destruct (existsb _ results); [now apply IH|].
    apply IH. apply Forall_app. split; [assumption|].
    constructor; [|constructor]. unfold not_named. rewrite Ef.
    intros H. inversion H. now apply (is_current_false name _ Hne E).
Qed.

Lemma arxiv_loop_unnamed (name : string) (n : nat) (entries : list FeedEntry) :
  forall results,
    Forall (not_named name) results ->
    match arxiv_loop n entries results with
    | Ok l => Forall (not_named name) l
    | Raise _ => True
    end.
Proof.
  induction entries as [|entry rest IH]; intros results Hres.
  - exact Hres.
  - simpl. destruct (entry_published entry); [|now apply IH].
    destruct (int_of_string _) as [year|]; [|exact I].
    destruct (2024 <=? year)%Z; [|now apply IH].
    assert (H : Forall (not_named name) (results ++ [arxiv_result entry year])).
    { apply Forall_app. split; [assumption|]. constructor; [|constructor]. discriminate. }
    destruct (n <=? _); [exact H|now apply IH].
Qed.

Lemma search_arxiv_unnamed (W : World) (name text : string) (n : nat) (s : RagSystem) :
  exists l s', _search_arxiv W text n s = (Ok l, s') /\ Forall (not_named name) l.
Proof.
  unfold _search_arxiv, try_except.
  unfold bind at 1.
  destruct (do_ollama_chat W _ _ s) as [[response|e] s1];
    [|eexists _, _; split; [reflexivity|constructor]].
  unfold bind at 1, do_now_year at 1.
  unfold bind at 1.
  match goal with |- context [ do_requests_get W ?u ?st ] =>
    destruct (do_requests_get W u st) as [[response2|e] s2] end;
    [|eexists _, _; split; [reflexivity|constructor]].
  destruct (fst response2 =? 200)%Z; [|eexists _, _; split; [reflexivity|constructor]].
  unfold lift_exc.
  pose proof (arxiv_loop_unnamed name n (snd response2) [] ltac:(constructor)) as H.
  destruct (arxiv_loop n (snd response2) []); eexists _, _; split;
    try reflexivity; [exact H|constructor].
Qed.

Lemma score_loop_fst (W : World) qe (l : list Recommendation) :
  forall s scored s',
    score_loop W qe l s = (Ok scored, s') -> map fst scored = l.
Proof.
  induction l as [|r rest IH]; intros s scored s' H; simpl in H.
  - inversion H. reflexivity.
  - unfold bind at 1 in H.
    destruct (score_result W qe r s) as [[[r' sc]|e] s1] eqn:E1; [|discriminate].
    assert (r' = r).
    { unfold score_result in E1. unfold bind at 1 in E1.
      destruct (rec_source r); [|discriminate]. unfold ret at 1 in E1.
      unfold bind at 1 in E1.
      match type of E1 with context [ (if ?c then ?a else ?b) s ] =>
        destruct ((if c then a else b) s) as [[? | ?] ?] end; [|discriminate].
      unfold bind in E1.
      match type of E1 with context [ semantic_score_of W qe r ?st ] =>
        destruct (semantic_score_of W qe r st) as [[? | ?] ?] end; [|discriminate].
      now inversion E1. }
    subst r'. unfold bind at 1 in H.
    destruct (score_loop W qe rest s1) as [[scored'|e] s2] eqn:E2; [|discriminate].
    inversion H; subst. simpl. f_equal. eapply IH; eassumption.
Qed.

(** Reranking only drops and reorders: what it returns was given to it. *)
Lemma rerank_results_subset (W : World) (results : list Recommendation) (text : string)
    (s : RagSystem) :
  exists l s',
    _rerank_results W results text s = (Ok l, s') /\ forall r, r ∈ l -> r ∈ results.
Proof.
  unfold _rerank_results, try_except.
  destruct (rerank_body W results text s) as [[l|e] s1] eqn:E.
  2:{ eexists _, _. split; [reflexivity|]. auto. }
  eexists _, _. split; [reflexivity|].
  unfold rerank_body in E. unfold bind at 1 in E.
  destruct (do_embed_query W _ s) as [[qe|?] s2]; [|discriminate].
  unfold bind in E.
  destruct (score_loop W qe (unique_loop results ∅) s2) as [[scored|?] s3] eqn:E3;
    [|discriminate].
  inversion E; subst. apply score_loop_fst in E3.
  intros r Hin. eapply elem_of_sublist; [|apply (unique_loop_sublist results ∅)].
  rewrite <- E3.
  apply list_elem_of_In in Hin. apply list_elem_of_In.
  eapply Permutation_in; [|exact Hin]. apply Permutation_map. apply sort_desc_perm.
Qed.

Lemma get_recommendations_excludes_name (W : World) (text : string) (n : nat)
    (name : string) (s : RagSystem) :
  name <> "" ->
  exists l s',
    get_recommendations W text n (Some name) s = (Ok l, s') /\
    length l <= n /\
    Forall (not_named name) l.
Proof.
  intros Hne. unfold get_recommendations, try_except.
  assert (Hfail : forall s', exists l s'',
            @ret (list Recommendation) [] s' = (Ok l, s'') /\ length l <= n /\
            Forall (not_named name) l).
  { intros s'. exists [], s'. split; [reflexivity|]. split; [simpl; lia|constructor]. }
  unfold bind at 1.
  destruct (do_embed_query W _ s) as [[embedding|?] s1]; [|apply Hfail].
  unfold bind at 1.
  destruct (do_similarity_search_by_vector W embedding (n + 5) s1)
    as [[chroma_results|?] s2]; [|apply Hfail].
  unfold bind at 1.
  pose proof (vector_loop_excludes W name chroma_results Hne [] s2 ltac:(constructor)) as Hv.
  destruct (vector_loop W (Some name) chroma_results [] s2) as [[results|?] s3];
    [|apply Hfail].
  unfold returns in Hv. simpl in Hv.
  unfold bind at 1.
  destruct (_lexical_search (Text.take 1000 text) n s3) as [[lexical_results|?] s4];
    [|apply Hfail].
  unfold bind at 1, lift_exc at 1.
  pose proof (merge_lexical_excludes name lexical_results Hne results Hv) as Hm.
  destruct (merge_lexical (Some name) lexical_results results) as [merged|?];
    [|apply Hfail].
  unfold bind at 1.
  match goal with |- context [ (if ?c then ?a else ?b) s4 ] =>
    assert (Ha : returns (Forall (not_named name)) ((if c then a else b) s4));
    [|destruct ((if c then a else b) s4) as [[all_results|?] s5]; [|apply Hfail]]
  end.
  { destruct (length merged <? n); [|exact Hm].
    unfold returns, bind.
    destruct (search_arxiv_unnamed W name text (n - length merged) s4)
      as (arxiv_results & s5 & -> & Hx).
    simpl. apply Forall_app. now split. }
  unfold returns in Ha. simpl in Ha.
  unfold bind.
  destruct (rerank_results_subset W all_results text s5) as (reranked & s6 & -> & Hsub).
  eexists _, _. split; [reflexivity|]. split.
  - rewrite length_firstn. lia.
  - rewrite Forall_forall in *. intros r Hin. apply Ha, Hsub.
    apply list_elem_of_In. apply list_elem_of_In in Hin.
    rewrite <- (firstn_skipn n reranked). apply in_or_app. now left.
Qed.

(** The identifier of a local result is its file name, that of any other
    result its source and title. *)
Lemma identifier_of_local (r : Recommendation) (filename : string) :
  rec_source r = Some "local" -> rec_filename r = Some filename ->
  identifier_of r = Some ("local:" +:+ filename).
Proof. unfold identifier_of. intros -> ->. reflexivity. Qed.

Lemma identifier_of_other (r : Recommendation) (source title : string) :
  rec_source r = Some source -> source <> "local" -> rec_title r = Some title ->
  identifier_of r = Some (source +:+ ":" +:+ title).
Proof.
  unfold identifier_of. intros -> Hs ->. simpl.
  destruct (rec_filename r); [|reflexivity].
  rewrite bool_decide_eq_false_2; [reflexivity|congruence].
Qed.


(** The candidates, reranked: the repeated file is dropped, the recent
    ArXiv result comes first, and the two local results of equal score
    keep their order. *)
Example candidates_reranked :
  fst (_rerank_results (library_world [] chat_confident) candidates photosynthesis_text
         (fresh_system None))
  = Ok [nth 1 candidates (lexical_result "" 0 "");
        nth 0 candidates (lexical_result "" 0 "");
        nth 3 candidates (lexical_result "" 0 "")].
Proof. vm_compute. reflexivity. Qed.

(** When the query embedding cannot be obtained, the candidates come
    back as they were given. *)
Lemma rerank_results_fallback (W : World) (results : list Recommendation)
    (query_text : string) (self : RagSystem) (e : string) :
  embed_query W (length (trace self)) (Text.take 1000 query_text) = Raise e ->
  fst (_rerank_results W results query_text self) = Ok results.
Proof.
  intros H. unfold _rerank_results, try_except, rerank_body, bind, do_embed_query, call.
  now rewrite H.
Qed.

(** C9, at a failing input: the article is ingested, its chunks under
    the stored file's name and its lexical record under the name it was
    uploaded with.  Asked for recommendations on its own text, with the
    stored name excluded, the engine returns the document's lexical
    record; with the uploaded name excluded, it returns the document's
    chunk. *)
Theorem recommendations_return_ingested_document :
  let W := library_world [chunk1] chat_confident in
  let ingested := add_document_from_article W article1 (fresh_system (Some 7%Z)) in
  fst ingested = Ok true /\
  In (EvAddDocuments [chunk1]) (trace (snd ingested)) /\
  metadata chunk1 !! "source" = Some (VStr (file_path article1)) /\
  map fst (lexical_index (snd ingested)) = [original_filename article1] /\
  fst (get_recommendations W photosynthesis_text 3
         (Some (Text.basename (file_path article1))) (snd ingested))
    = Ok [lexical_result (original_filename article1) 7 photosynthesis_text] /\
  fst (get_recommendations W photosynthesis_text 3
         (Some (original_filename article1)) (snd ingested))
    = Ok [vector_result chunk1 (Text.basename (file_path article1)) (Some article1)].
Proof.
  cbv zeta. split; [vm_compute; reflexivity|].
  split; [vm_compute; do 3 right; left; reflexivity|].
  split; [vm_compute; reflexivity|].
  split; [vm_compute; reflexivity|].
  split; vm_compute; reflexivity.
Qed.

(* ================================================================== *)
(** * How a run of [ask] ends                                          *)
(* ================================================================== *)

Lemma add_to_conversation_memory_effect (W : World) (question answer : string)
    (self : RagSystem) :
  exists self' outcome,
    _add_to_conversation_memory W question answer self = (Ok tt, self') /\
    conversation_memory self' =
      memory_append (conversation_memory self) (entry_at W question answer self) /\
    trace self' = trace self ++ [EvTime; EvDump (conversation_memory self') outcome] /\
    outcome = pickle_dump W (length (trace self ++ [EvTime])) (conversation_memory self') /\
    memory_file self' =
      match outcome with
      | Ok _ => Some (conversation_memory self')
      | Raise _ => memory_file self
      end.
Proof.
  unfold _add_to_conversation_memory, _save_conversation_memory, bind, try_except,
    do_time_time, modify, get_self, do_pickle_dump. simpl.
  destruct (pickle_dump W _ _) as [[]|] eqn:E; eexists _, _; simpl;
    (split; [reflexivity|]); (split; [reflexivity|]);
    (split; [unfold log, set_memory_file, set_conversation_memory; simpl;
             rewrite <- app_assoc; reflexivity|]);
    (split; [symmetry; exact E|]); reflexivity.
Qed.

Lemma side_call_not_dump (evs : list Event) :
  forallb is_side_call evs = true ->
  forallb (fun ev => negb (is_dump ev)) evs = true.
Proof.
  rewrite !forallb_forall. intros H ev Hin. specialize (H ev Hin). now destruct ev.
Qed.

Lemma ask_outcomes (W : World) q aid rm thr self :
  ask_outcome q rm self (ask W q aid rm thr self).
Proof.
  unfold ask, try_except, bind at 1, get_self. cbv beta iota.
  unfold bind at 1.
  pose proof (appends_weaken _ _ _ search_is_side
                (retrieve_appends W q (search_filters_of (user_id self) aid)) self) as HA.
  destruct (retrieve W q (search_filters_of (user_id self) aid) self) as [[docs|e1] s1].
  2:{ simpl in HA. destruct HA as (M1 & F1 & evs & T & Pevs). simpl.
      apply outcome_error; [assumption..|].
      rewrite (new_events_app _ _ _ T). now apply side_call_not_dump. }
  simpl in HA. destruct HA as (M1 & F1 & evs1 & T1 & P1).
  destruct docs as [|d ds].
  { unfold bind at 1.
    destruct (add_to_conversation_memory_effect W q NO_CONTEXT_ANSWER s1)
      as (s2 & outcome & R & M2 & T2 & _ & F2).
    simpl r_answer. rewrite R. simpl.
    apply (outcome_answered q rm self _ s2 evs1
             (time_time W (length (trace s1))) outcome).
    - apply new_events_app. rewrite T2, T1. now rewrite <- app_assoc.
    - now apply side_call_not_dump.
    - rewrite M2, M1. unfold entry_at. now destruct rm.
    - rewrite F2, F1. reflexivity. }
  set (context := Text.join LF2 (concat (map context_parts_of (d :: ds)))).
  unfold bind at 1.
  match goal with
  | |- context [ (if rm then ?a else ?b) s1 ] =>
      assert (HB : appends is_side_call (if rm then a else b))
        by (destruct rm;
            [apply appends_bind; [apply check_context_appends | intros; apply appends_ret]
            | apply appends_ret]);
      specialize (HB s1);
      destruct ((if rm then a else b) s1) as [[checked|e2] s2]
  end; simpl in HB; destruct HB as (M2 & F2 & evs2 & T2 & P2).
  2:{ simpl. apply outcome_error; [congruence..|].
      rewrite (new_events_app self s2 (evs1 ++ evs2)).
      - apply side_call_not_dump. rewrite forallb_app. now rewrite P1, P2.
      - rewrite T2, T1. now rewrite <- app_assoc. }
  unfold bind at 1.
  destruct (build_memory_context_run s2) as (memory_context & ->).
  unfold bind at 1, do_ollama_chat at 1. cbv beta zeta.
  match goal with
  | |- context [ EvChat _ [system_message; user_message ?p] _ ] => set (prompt := p)
  end.
  destruct (ollama_chat W (length (trace s2)) (DEFAULT_SUMMARIZATION_MODEL W)
              [system_message; user_message prompt]) as [response|e3].
  2:{ simpl. apply outcome_error; simpl; [congruence..|].
      rewrite (new_events_app self _
                 (evs1 ++ evs2 ++
                  [EvChat (DEFAULT_SUMMARIZATION_MODEL W)
                     [system_message; user_message prompt] (Raise e3)])).
      - rewrite !forallb_app. rewrite (side_call_not_dump _ P1), (side_call_not_dump _ P2).
        reflexivity.
      - simpl. rewrite T2, T1. now rewrite <- !app_assoc. }
  set (gen := EvChat (DEFAULT_SUMMARIZATION_MODEL W)
                [system_message; user_message prompt] (Ok response)).
  set (s3 := log gen s2).
  assert (T3 : trace s3 = trace self ++ evs1 ++ evs2 ++ [gen]).
  { unfold s3. simpl. rewrite T2, T1. now rewrite <- !app_assoc. }
  assert (M3 : conversation_memory s3 = conversation_memory self) by (simpl; congruence).
  assert (F3 : memory_file s3 = memory_file self) by (simpl; congruence).
  clearbody s3.
  assert (G3 : negb (is_dump gen) = true) by reflexivity.
  clearbody gen.
  unfold bind at 1.
  match goal with
  | |- context [ (if rm then ?a else ?b) s3 ] =>
      assert (HD : appends is_side_call (if rm then a else b))
        by (destruct rm;
            [destruct (snd checked);
             [apply appends_bind;
              [apply check_answer_appends
              | intros [[[? ?] ?] ?]; apply appends_ret]
             | apply appends_raise]
            | apply appends_ret]);
      specialize (HD s3);
      destruct ((if rm then a else b) s3) as [[verdict|e4] s4]
  end; simpl in HD; destruct HD as (M4 & F4 & evs4 & T4 & P4).
  2:{ simpl. apply outcome_error; [congruence..|].
      rewrite (new_events_app self s4 (evs1 ++ evs2 ++ [gen] ++ evs4)).
      - rewrite !forallb_app.
        rewrite (side_call_not_dump _ P1), (side_call_not_dump _ P2),
          (side_call_not_dump _ P4). simpl. now rewrite G3.
      - rewrite T4, T3. now rewrite <- !app_assoc. }
  destruct verdict as [[[verification_result final_answer] status] final_score].
  unfold bind at 1.
  destruct (add_to_conversation_memory_effect W q final_answer s4)
    as (s5 & outcome & R & M5 & T5 & _ & F5).
  rewrite R. simpl.
  apply (outcome_answered q rm self _ s5 (evs1 ++ evs2 ++ [gen] ++ evs4)
           (time_time W (length (trace s4))) outcome).
  - apply new_events_app. rewrite T5, T4, T3. now rewrite <- !app_assoc.
  - rewrite !forallb_app.
    rewrite (side_call_not_dump _ P1), (side_call_not_dump _ P2),
      (side_call_not_dump _ P4). simpl. now rewrite G3.
  - rewrite M5, M4, M3. unfold entry_at. now destruct rm.
  - rewrite F5, F4, F3. reflexivity.
Qed.


(** X1: [ask] never raises.  Whatever the collaborators do, it returns
    a result, and it either returns the error result and leaves the
    conversation memory and its file as they were, or it has appended to
    the memory exactly one entry, holding the question and the answer it
    returns (the fallback answer of an empty retrieval included). *)
Theorem ask_returns_and_records (W : World) (question : string) (article_id : option Z)
    (return_metadata : bool) (validation_threshold : Q) (self : RagSystem) :
  exists res self',
    ask W question article_id return_metadata validation_threshold self = (Ok res, self') /\
    ((exists e, res = error_result return_metadata e /\
                conversation_memory self' = conversation_memory self /\
                memory_file self' = memory_file self) \/
     (exists now,
        conversation_memory self' =
          memory_append (conversation_memory self)
            {| turn_question := question; turn_answer := result_answer res;
               turn_timestamp := now |})).
Proof.
  destruct (ask_outcomes W question article_id return_metadata validation_threshold self)
    as [e self' Hm Hf _ | res self' evs now outcome _ _ Hm _].
  - exists (error_result return_metadata e), self'. split; [reflexivity|].
    left. exists e. auto.
  - exists res, self'. split; [reflexivity|]. right. exists now. exact Hm.
Qed.



(* ================================================================== *)
(** * The verdict on a draft                                           *)
(* ================================================================== *)

Lemma new_events_log2 (s : RagSystem) (e1 e2 : Event) :
  new_events s (log e2 (log e1 s)) = [e1; e2].
Proof. apply new_events_app. simpl. now rewrite <- app_assoc. Qed.

Lemma new_events_log3 (s : RagSystem) (e1 e2 e3 : Event) :
  new_events s (log e3 (log e2 (log e1 s))) = [e1; e2; e3].
Proof. apply new_events_app. simpl. now rewrite <- !app_assoc. Qed.

Lemma new_events_log1 (s : RagSystem) (e1 : Event) : new_events s (log e1 s) = [e1].
Proof. now apply new_events_app. Qed.


Lemma check_context_run (W : World) (question context : string)
    (docs : list Document) (self : RagSystem) :
  check_context W question context docs self =
    let prompt := context_relevance_prompt question context in
    let first := judge_verdict (judge_reply W prompt self) in
    let s1 := after_judge W prompt self in
    if Qle_bool (score first) (1 # 2) then
      let s2 := log (EvSimilaritySearch question 5) s1 in
      match similarity_search W (length (trace s1)) question 5 with
      | Raise e => (Raise e, s2)
      | Ok additional_docs =>
          let additional_context :=
            Text.join LF2 (map page_content (filter (not_in docs) additional_docs)) in
          if nonempty_str additional_context then
            let context' := context +:+ LF2 +:+ additional_context in
            let prompt' := context_relevance_prompt question context' in
            (Ok (context', judge_verdict (judge_reply W prompt' s2)),
             after_judge W prompt' s2)
          else (Ok (context, first), s2)
      end
    else (Ok (context, first), s1).
Proof.
  unfold check_context, _verify_context_relevance, bind at 1. rewrite judge_run.
  cbv zeta.
  destruct (Qle_bool _ _); [|reflexivity].
  unfold bind at 1, do_similarity_search, call, after_judge.
  destruct (similarity_search W _ question 5) as [additional_docs|e]; [|reflexivity].
  destruct (nonempty_str _); [|reflexivity].
  unfold bind. rewrite judge_run. reflexivity.
Qed.

Lemma not_in_spec (docs : list Document) (d : Document) :
  not_in docs d = true -> ~ In d docs.
Proof.
  unfold not_in. intros H Hin. apply negb_true_iff in H.
  assert (existsb (fun d0 => bool_decide (d = d0)) docs = true); [|congruence].
  apply existsb_exists. exists d. split; [assumption|]. now apply bool_decide_eq_true.
Qed.

(** X4: the context check of [ask].  It asks the judge at most twice
    and searches at most once more.  A first verdict above 0.5 ends it
    after one call with the context as it was.  Otherwise the context
    only grows, by chunks the first retrieval did not return, and the
    only exception that leaves it is that of the supplementary search. *)
Theorem check_context_one_retry (W : World) (question context : string)
    (docs : list Document) (self : RagSystem) :
  let prompt := context_relevance_prompt question context in
  let first := judge_verdict (judge_reply W prompt self) in
  let run := check_context W question context docs self in
  count_calls is_chat (new_events self (snd run)) <= 2 /\
  count_calls is_search (new_events self (snd run)) <= 1 /\
  (if Qle_bool (score first) (1 # 2) then
     match fst run with
     | Ok (context', _) =>
         context' = context \/
         exists additional_docs,
           Forall (fun d => ~ In d docs) additional_docs /\
           context' = context +:+ LF2 +:+ Text.join LF2 (map page_content additional_docs)
     | Raise e =>
         similarity_search W (length (trace (after_judge W prompt self))) question 5 = Raise e
     end
   else run = (Ok (context, first), after_judge W prompt self)).
Proof.
  intros prompt first run. subst run. rewrite check_context_run. cbv zeta.
  fold prompt. fold first.
  destruct (Qle_bool (score first) (1 # 2)) eqn:Q.
  2:{ cbn [fst snd]. unfold after_judge. rewrite new_events_log1. repeat split; auto. }
  destruct (similarity_search W (length (trace (after_judge W prompt self))) question 5)
    as [additional_docs|e] eqn:S.
  2:{ cbn [fst snd]. unfold after_judge. rewrite new_events_log2. repeat split; auto. }
  set (fresh := filter (not_in docs) additional_docs).
  destruct (nonempty_str (Text.join LF2 (map page_content fresh))) eqn:N.
  - cbn [fst snd]. unfold after_judge. rewrite new_events_log3.
    repeat split; auto. right. exists fresh. split; [|reflexivity].
    apply List.Forall_forall. intros d Hd. unfold fresh in Hd.
    apply list_elem_of_In, list_elem_of_filter in Hd as [Hd _].
    apply not_in_spec. now apply Is_true_true.
  - cbn [fst snd]. unfold after_judge. rewrite new_events_log2. repeat split; auto.
Qed.

(* ================================================================== *)
(** * The history block                                                *)
(* ================================================================== *)

Lemma last_n_idem {A} (n : nat) (l : list A) : last_n n (last_n n l) = last_n n l.
Proof. apply last_n_all. rewrite last_n_length. lia. Qed.

(** X5: the history block of the prompt is built from the last five
    exchanges alone: it is the block of a memory holding only those
    five, numbered from 1, and building it changes nothing. *)
Theorem build_memory_context_window (self : RagSystem) :
  _build_memory_context self =
    (fst (_build_memory_context
            (set_conversation_memory (last_n 5 (conversation_memory self)) self)),
     self).
Proof.
  unfold _build_memory_context, bind, get_self, ret. cbv beta iota.
  unfold set_conversation_memory at 1 2. cbn [conversation_memory].
  rewrite last_n_idem.
  destruct (conversation_memory self) as [|t m] eqn:E; [reflexivity|].
  destruct (last_n 5 (t :: m)) as [|t' m'] eqn:E'; [|reflexivity].
  exfalso. apply (f_equal (@length Turn)) in E'. rewrite last_n_length in E'.
  simpl in E'. lia.
Qed.

(* ================================================================== *)
(** * Reading a score                                                  *)
(* ================================================================== *)

Module ScoreFacts.
Import Text TextFacts.

Lemma span_app (cls : ascii -> bool) (a b : string) :
  sforall cls a = true ->
  match b with EmptyString => True | String c _ => cls c = false end ->
  span cls (a +:+ b) = (a, b).
Proof.
  intros Ha Hb. induction a as [|c a IH].
  - rewrite append_nil. destruct b as [|c b]; [reflexivity|]. simpl. now rewrite Hb.
  - simpl in Ha. apply andb_prop in Ha as [Hc Ha].
    rewrite append_cons. simpl. rewrite Hc, (IH Ha). reflexivity.
Qed.

Lemma blank_sforall (s : string) : blank s = sforall isspace s.
Proof. induction s as [|c s IH]; [reflexivity|]. simpl. now rewrite IH. Qed.

Lemma digit_not_space (c : ascii) : isdigit c = true -> isspace c = false.
Proof.
  unfold isdigit, isspace. intros H.
  apply andb_prop in H as [H1 H2]. apply Nat.leb_le in H1, H2.
  apply orb_false_iff.
  split; apply andb_false_iff; right; apply Nat.leb_gt; lia.
Qed.

Lemma digits_no_dot (s : string) : sforall isdigit s = true -> contains "." s = false.
Proof.
  unfold contains. induction s as [|c s IH]; intros H; [reflexivity|].
  simpl in H. apply andb_prop in H as [Hc H]. specialize (IH H).
  rewrite partition_unfold.
  assert (E : startswith "." (String c s) = None).
  { cbn [startswith]. destruct (Ascii.eqb "." c) eqn:Ec; [|reflexivity].
    apply Ascii.eqb_eq in Ec. subst c. discriminate. }
  rewrite E. destruct (partition "." s); [discriminate|reflexivity].
Qed.

Lemma match_score_at_decimal (ws i f rest : string) :
  blank ws = true -> sforall isdigit i = true -> sforall isdigit f = true ->
  i <> "" -> f <> "" ->
  match_score_at ("[SCORE:" +:+ ws +:+ i +:+ "." +:+ f +:+ "]" +:+ rest) =
    Some (i +:+ "." +:+ f).
Proof.
  intros Hws Hi Hf Ni Nf. unfold match_score_at.
  rewrite startswith_app.
  rewrite (span_app isspace ws).
  2:{ now rewrite <- blank_sforall. }
  2:{ destruct i as [|c i]; [congruence|]. rewrite append_cons.
      simpl in Hi. apply andb_prop in Hi as [Hc _]. now apply digit_not_space. }
  rewrite (span_app isdigit i); [|assumption|reflexivity].
  destruct i as [|c i]; [congruence|].
  change ("." +:+ f +:+ "]" +:+ rest) with (String "." (f +:+ "]" +:+ rest)).
  cbv iota beta.
  rewrite (span_app isdigit f); [|assumption|reflexivity].
  destruct f as [|d f]; [congruence|]. reflexivity.
Qed.

Lemma match_score_at_integer (ws i rest : string) :
  blank ws = true -> sforall isdigit i = true -> i <> "" ->
  match_score_at ("[SCORE:" +:+ ws +:+ i +:+ "]" +:+ rest) = Some i.
Proof.
  intros Hws Hi Ni. unfold match_score_at.
  rewrite startswith_app.
  rewrite (span_app isspace ws).
  2:{ now rewrite <- blank_sforall. }
  2:{ destruct i as [|c i]; [congruence|]. rewrite append_cons.
      simpl in Hi. apply andb_prop in Hi as [Hc _]. now apply digit_not_space. }
  rewrite (span_app isdigit i); [|assumption|reflexivity].
  destruct i as [|c i]; [congruence|]. reflexivity.
Qed.

Lemma re_search_score_at (s g : string) :
  match_score_at s = Some g -> re_search_score s = Some g.
Proof. intros H. destruct s; cbn [re_search_score]; now rewrite H. Qed.

Lemma float_of_decimal_point (i f : string) :
  sforall isdigit i = true ->
  float_of_decimal (i +:+ "." +:+ f) =
    (inject_Z (Z.of_nat (digits_value i 0)) +
     (Z.of_nat (digits_value f 0) # Pos.of_nat (10 ^ String.length f)))%Q.
Proof.
  intros Hi. unfold float_of_decimal.
  rewrite (partition_first "." i f eq_refl (digits_no_dot i Hi)). reflexivity.
Qed.

Lemma float_of_decimal_integer (i : string) :
  sforall isdigit i = true ->
  float_of_decimal i = inject_Z (Z.of_nat (digits_value i 0)).
Proof.
  intros Hi. unfold float_of_decimal.
  now rewrite (contains_false _ _ (digits_no_dot i Hi)).
Qed.

End ScoreFacts.

(** X6: a reply that begins with a well-formed score is read as the
    number it writes.  For digits [i] and [f] and any white space after
    the colon, [[SCORE: i.f]] gives [i + f / 10^|f|] and [[SCORE: i]]
    gives [i], each clamped to [0,1], whatever follows the bracket. *)
Theorem parse_score_reads_leading_score (ws i f rest : string) :
  blank ws = true -> sforall Text.isdigit i = true -> sforall Text.isdigit f = true ->
  i <> "" -> f <> "" ->
  parse_score ("[SCORE:" +:+ ws +:+ i +:+ "." +:+ f +:+ "]" +:+ rest) =
    Qmax 0 (Qmin (inject_Z (Z.of_nat (Text.digits_value i 0)) +
                  (Z.of_nat (Text.digits_value f 0) # Pos.of_nat (10 ^ String.length f))) 1) /\
  parse_score ("[SCORE:" +:+ ws +:+ i +:+ "]" +:+ rest) =
    Qmax 0 (Qmin (inject_Z (Z.of_nat (Text.digits_value i 0))) 1).
Proof.
  intros Hws Hi Hf Ni Nf. unfold parse_score. split.
  - rewrite (ScoreFacts.re_search_score_at _ _
               (ScoreFacts.match_score_at_decimal ws i f rest Hws Hi Hf Ni Nf)).
    now rewrite ScoreFacts.float_of_decimal_point.
  - rewrite (ScoreFacts.re_search_score_at _ _
               (ScoreFacts.match_score_at_integer ws i rest Hws Hi Ni)).
    now rewrite ScoreFacts.float_of_decimal_integer.
Qed.

Lemma parse_score_reads_leading_score_witness :
  parse_score "[SCORE: 0.85] Mostly supported." = Qmax 0 (Qmin (0 + (85 # 100)) 1) /\
  parse_score "[SCORE: 0] Mostly supported." = Qmax 0 (Qmin 0 1).
Proof.
  exact (parse_score_reads_leading_score " " "0" "85" " Mostly supported."
           eq_refl eq_refl eq_refl ltac:(discriminate) ltac:(discriminate)).
Defined.

(* ================================================================== *)
(** * Blocks that are not closed                                       *)
(* ================================================================== *)

Module ContainsFacts.
Import Text TextFacts.






End ContainsFacts.



(* ================================================================== *)
(** * The lexical index                                                *)
(* ================================================================== *)

Section NatSortFacts.
Context {A : Type} (key : A -> nat).





End NatSortFacts.








(** ** Indexing, then searching *)

Module IndexFacts.
Import Text TextFacts ContainsFacts.






Lemma fold_left_extends {B : Type} (f : string -> B -> string) (l : list B) (init : string) :
  (forall acc b, exists suffix, f acc b = acc +:+ suffix) ->
  exists suffix, fold_left f l init = init +:+ suffix.
Proof.
  intros Hf. revert init. induction l as [|b l IH]; intros init.
  - exists "". now rewrite StripFacts.append_empty_r.
  - simpl. destruct (Hf init b) as (s1 & ->). destruct (IH (init +:+ s1)) as (s2 & ->).
    exists (s1 +:+ s2). now rewrite append_assoc.
Qed.


Lemma dict_set_length {V : Type} (key : string) (v : V) (d : list (string * V)) :
  length (dict_set key v d) =
    match dict_lookup key d with Some _ => length d | None => S (length d) end.
Proof.
  induction d as [|[k v'] t IH]; simpl; [reflexivity|].
  destruct (String.eqb key k); [reflexivity|]. simpl. rewrite IH.
  now destruct (dict_lookup key t).
Qed.

Lemma dict_lookup_set {V : Type} (key : string) (v : V) (d : list (string * V)) :
  dict_lookup key (dict_set key v d) = Some v.
Proof.
  induction d as [|[k v'] t IH]; simpl.
  - now rewrite String.eqb_refl.
  - destruct (String.eqb key k) eqn:E; simpl.
    + now rewrite String.eqb_refl.
    + now rewrite E.
Qed.

Lemma dict_lookup_set_other {V : Type} (key other : string) (v : V) (d : list (string * V)) :
  other <> key -> dict_lookup other (dict_set key v d) = dict_lookup other d.
Proof.
  intros Hne. induction d as [|[k v'] t IH]; simpl.
  - apply String.eqb_neq in Hne. now rewrite Hne.
  - destruct (String.eqb key k) eqn:E; simpl.
    + apply String.eqb_eq in E. subst k. apply String.eqb_neq in Hne. now rewrite Hne.
    + now rewrite IH.
Qed.

Lemma dict_set_keys {V : Type} (key : string) (v : V) (d : list (string * V)) (k : string) :
  In k (map fst (dict_set key v d)) -> k = key \/ In k (map fst d).
Proof.
  induction d as [|[k' v'] t IH]; simpl.
  - intros [H|[]]; auto.
  - destruct (String.eqb key k') eqn:E; simpl.
    + apply String.eqb_eq in E. subst k'. intros [H|H]; auto.
    + intros [H|H]; auto. destruct (IH H); auto.
Qed.

Lemma dict_set_wf {V : Type} (key : string) (v : V) (d : list (string * V)) :
  dict_wf d -> dict_wf (dict_set key v d).
Proof.
  unfold dict_wf. induction d as [|[k' v'] t IH]; simpl; intros H.
  - apply NoDup_singleton.
  - apply NoDup_cons in H as [Hnot Ht].
    destruct (String.eqb key k') eqn:E; simpl.
    + apply String.eqb_eq in E. subst k'. apply NoDup_cons. now split.
    + apply NoDup_cons. split; [|now apply IH].
      intros Hin. apply list_elem_of_In, dict_set_keys in Hin as [Hin|Hin].
      * subst k'. now rewrite String.eqb_refl in E.
      * apply Hnot. now apply list_elem_of_In.
Qed.

End IndexFacts.

Lemma index_document_run (docs : list Document) (filename : string)
    (images figures_tables : list VisualElement) (self : RagSystem) :
  exists entry,
    _index_document_for_lexical_search docs filename images figures_tables self =
      (Ok tt, set_lexical_index (dict_set filename entry (lexical_index self)) self) /\
    lex_chunks entry = map page_content docs /\
    exists suffix,
      lex_content entry = Text.join " " (map page_content docs) +:+ suffix.
Proof.
  unfold _index_document_for_lexical_search, modify.
  eexists. split; [reflexivity|]. split; [reflexivity|]. cbn [lex_content].
  match goal with
  | |- exists suffix, fold_left ?f figures_tables (fold_left ?g images ?init) = _ =>
      destruct (IndexFacts.fold_left_extends g images init) as (s1 & ->);
      [|destruct (IndexFacts.fold_left_extends f figures_tables (init +:+ s1)) as (s2 & ->)]
  end.
  - intros acc b. destruct (nonempty_str (ve_text_content b)).
    + eexists. first [reflexivity | rewrite !TextFacts.append_assoc; reflexivity].
    + exists "". now rewrite StripFacts.append_empty_r.
  - intros acc b. destruct (nonempty_str (ve_text_content b)).
    + eexists. first [reflexivity | rewrite !TextFacts.append_assoc; reflexivity].
    + exists "". now rewrite StripFacts.append_empty_r.
  - exists (s1 +:+ s2). now rewrite TextFacts.append_assoc.
Qed.




(** X11: the index is keyed by file name.  Indexing a document under
    [filename] stores its pages under that key, replacing what the key
    held; every other key keeps its record; the keys stay distinct; and
    the index grows by one record exactly when the key is new.  Neither
    a call is made nor the conversation memory touched. *)
Theorem index_document_replaces_record (docs : list Document) (filename : string)
    (images figures_tables : list VisualElement) (self : RagSystem) :
  exists entry self',
    _index_document_for_lexical_search docs filename images figures_tables self =
      (Ok tt, self') /\
    dict_lookup filename (lexical_index self') = Some entry /\
    lex_chunks entry = map page_content docs /\
    (forall other, other <> filename ->
       dict_lookup other (lexical_index self') = dict_lookup other (lexical_index self)) /\
    (dict_wf (lexical_index self) -> dict_wf (lexical_index self')) /\
    length (lexical_index self') =
      match dict_lookup filename (lexical_index self) with
      | Some _ => length (lexical_index self)
      | None => S (length (lexical_index self))
      end /\
    conversation_memory self' = conversation_memory self /\
    trace self' = trace self.
Proof.
  destruct (index_document_run docs filename images figures_tables self)
    as (entry & R & Hchunks & _).
  eexists entry, _. split; [exact R|]. cbn [lexical_index set_lexical_index].
  split; [apply IndexFacts.dict_lookup_set|]. split; [exact Hchunks|].
  split; [intros other Hne; now apply IndexFacts.dict_lookup_set_other|].
  split; [apply IndexFacts.dict_set_wf|].
  split; [apply IndexFacts.dict_set_length|]. split; reflexivity.
Qed.

(* ================================================================== *)
(** * Ingestion                                                        *)
(* ================================================================== *)

Lemma truthy_some (z : option Z) (v : Z) : truthy z = Some v -> z = Some v.
Proof. destruct z as [[| |]|]; simpl; congruence. Qed.

Lemma tag_chunk_tagged (article : Article) (chunk : Document) :
  tagged_for article (tag_chunk article chunk).
Proof.
  unfold tagged_for, matching, owner_filters, search_filters_of. split.
  - apply metadata_matches_spec. apply Forall_app. split.
    + destruct (truthy (Some (article_user_id article))) as [u|] eqn:E; [|constructor].
      apply truthy_some in E. inversion E; subst. constructor; [|constructor].
      unfold dict_get. simpl. by simplify_map_eq.
    + destruct (truthy (Some (article_id_of article))) as [a|] eqn:E; [|constructor].
      apply truthy_some in E. inversion E; subst. constructor; [|constructor].
      unfold dict_get. simpl. by simplify_map_eq.
  - simpl. by simplify_map_eq.
Qed.

Lemma save_lexical_index_run (W : World) (s : RagSystem) :
  _save_lexical_index W s = (Ok tt, log (EvDumpLexical (lexical_index s)) s).
Proof.
  unfold _save_lexical_index, try_except, bind, get_self, call.
  destruct (lexical_dump W _ _) as [[]|]; reflexivity.
Qed.

(** X12: what ingestion leaves behind.  [add_document_from_article]
    never raises and never touches the conversation memory.  When it
    returns [False] the lexical index is as it was.  When it returns
    [True] the file had pages, the chunks handed to the vector store all
    carry the article's owner, id and title, so that the filters [ask]
    builds for that owner and article accept every one of them, and the
    lexical index holds the pages under the name the file was uploaded
    with. *)
Theorem add_document_outcome (W : World) (article : Article) (self : RagSystem) :
  exists ok self',
    add_document_from_article W article self = (Ok ok, self') /\
    conversation_memory self' = conversation_memory self /\
    if ok then
      exists docs chunks entry,
        docs <> [] /\
        In (EvAddDocuments chunks) (new_events self self') /\
        Forall (tagged_for article) chunks /\
        dict_lookup (original_filename article) (lexical_index self') = Some entry /\
        lex_chunks entry = map page_content docs
    else lexical_index self' = lexical_index self.
Proof.
  unfold add_document_from_article, try_except.
  unfold bind at 1, call at 1. cbv beta iota.
  destruct (path_exists W (length (trace self)) (file_path article)); cbn [negb].
  2:{ eexists false, _. split; [reflexivity|]. split; reflexivity. }
  unfold bind at 1, call at 1. cbv beta iota.
  destruct (pdf_load W _ (file_path article)) as [docs|e].
  2:{ eexists false, _. split; [reflexivity|]. split; reflexivity. }
  destruct docs as [|d ds].
  { eexists false, _. split; [reflexivity|]. split; reflexivity. }
  cbv zeta. unfold bind at 1, call at 1. cbv beta iota.
  destruct (split_documents W _) as [chunks|e].
  2:{ eexists false, _. split; [reflexivity|]. split; reflexivity. }
  unfold bind at 1, call at 1. cbv beta iota.
  destruct (add_documents W _ _) as [[]|e].
  2:{ eexists false, _. split; [reflexivity|]. split; reflexivity. }
  unfold bind at 1, call at 1. cbv beta iota.
  destruct (persist W _) as [[]|e].
  2:{ eexists false, _. split; [reflexivity|]. split; reflexivity. }
  unfold bind at 1.
  match goal with
  | |- context [ _index_document_for_lexical_search ?ds ?f ?im ?ft ?s ] =>
      destruct (index_document_run ds f im ft s) as (entry & R & Hchunks & _);
      rewrite R
  end.
  unfold bind. rewrite save_lexical_index_run. cbn [ret].
  eexists true, _. split; [reflexivity|]. split; [reflexivity|].
  exists (d :: ds), (map (tag_chunk article) chunks), entry.
  split; [discriminate|]. split.
  { erewrite new_events_app.
    2:{ simpl. rewrite <- !app_assoc. reflexivity. }
    simpl. tauto. }
  split.
  { apply List.Forall_forall. intros c Hc. apply in_map_iff in Hc as (c0 & <- & _).
    apply tag_chunk_tagged. }
  split; [|exact Hchunks].
  cbn [lexical_index log set_lexical_index]. apply IndexFacts.dict_lookup_set.
Qed.

(* ================================================================== *)
(** * Recommendations                                                  *)
(* ================================================================== *)

Lemma arxiv_loop_recent (n : nat) (entries : list FeedEntry) :
  forall results,
    Forall recent_arxiv results -> length results < Nat.max 1 n ->
    match arxiv_loop n entries results with
    | Ok l => Forall recent_arxiv l /\ length l <= Nat.max 1 n
    | Raise _ => True
    end.
Proof.
  induction entries as [|entry rest IH]; intros results Hres Hlen.
  - simpl. split; [exact Hres|lia].
  - simpl. destruct (entry_published entry); [|now apply IH].
    destruct (int_of_string _) as [year|]; [|exact I].
    destruct (2024 <=? year)%Z eqn:Y; [|now apply IH].
    assert (H : Forall recent_arxiv (results ++ [arxiv_result entry year])).
    { apply Forall_app. split; [assumption|]. constructor; [|constructor].
      split; [reflexivity|]. split; [reflexivity|].
      exists year. split; [reflexivity|]. now apply Z.leb_le. }
    assert (L : length (results ++ [arxiv_result entry year]) = S (length results)).
    { rewrite length_app. simpl. lia. }
    destruct (n <=? length (results ++ [arxiv_result entry year])) eqn:N.
    + split; [exact H|]. rewrite L. lia.
    + apply IH; [exact H|]. apply Nat.leb_gt in N. lia.
Qed.

(** X13: the ArXiv pass.  [_search_arxiv] never raises; it asks the
    model once for keywords and sends at most one request; it returns at
    most [max 1 n] results, each with source [arxiv], a year of 2024 or
    later and no file name; and a run that sends no request returns
    nothing. *)
Theorem search_arxiv_bounded (W : World) (text : string) (n : nat) (self : RagSystem) :
  exists results self',
    _search_arxiv W text n self = (Ok results, self') /\
    length results <= Nat.max 1 n /\
    Forall recent_arxiv results /\
    count_calls is_chat (new_events self self') = 1 /\
    count_calls is_http (new_events self self') <= 1 /\
    (forallb (fun ev => negb (is_http ev)) (new_events self self') = true -> results = []).
Proof.
  unfold _search_arxiv, try_except.
  unfold bind at 1, do_ollama_chat at 1. cbv beta zeta.
  destruct (ollama_chat W (length (trace self)) _ _) as [response|e].
  2:{ eexists [], _. split; [reflexivity|]. rewrite new_events_log1.
      repeat split; auto; simpl; lia. }
  unfold bind at 1, do_now_year at 1. cbv beta zeta.
  unfold bind at 1, do_requests_get at 1, call at 1. cbv beta zeta.
  match goal with |- context [ requests_get W ?k ?u ] =>
    destruct (requests_get W k u) as [response2|e] end.
  2:{ eexists [], _. split; [reflexivity|]. rewrite new_events_log3.
      repeat split; auto; simpl; lia. }
  destruct (fst response2 =? 200)%Z.
  2:{ eexists [], _. split; [reflexivity|]. rewrite new_events_log3.
      repeat split; auto; simpl; lia. }
  unfold lift_exc.
  pose proof (arxiv_loop_recent n (snd response2) [] ltac:(constructor)
                ltac:(simpl; lia)) as H.
  destruct (arxiv_loop n (snd response2) []) as [l|e].
  - destruct H as [H1 H2]. eexists l, _. split; [reflexivity|].
    rewrite new_events_log3. repeat split; auto. simpl. discriminate.
  - eexists [], _. split; [reflexivity|]. rewrite new_events_log3.
    repeat split; auto; simpl; lia.
Qed.





(** X15: reranking never raises and never invents a result.  Whatever
    the embedding model does, [_rerank_results] returns a list whose
    results were all among the candidates and which is no longer than
    the candidates; when the embedding of the query cannot be obtained
    it is the list of candidates itself, duplicates and order included,
    after that one call. *)
Theorem rerank_results_never_raises (W : World) (results : list Recommendation)
    (query_text : string) (self : RagSystem) :
  exists ranked self',
    _rerank_results W results query_text self = (Ok ranked, self') /\
    (forall r, In r ranked -> In r results) /\
    length ranked <= length results /\
    match embed_query W (length (trace self)) (Text.take 1000 query_text) with
    | Raise _ =>
        ranked = results /\
        new_events self self' = [EvEmbed (Text.take 1000 query_text)]
    | Ok _ => True
    end.
Proof.
  destruct (rerank_results_subset W results query_text self) as (l & s' & R & Hsub).
  exists l, s'. split; [exact R|].
  split; [intros r Hr; apply list_elem_of_In, Hsub, list_elem_of_In, Hr|].
  revert R. unfold _rerank_results, try_except, rerank_body.
  unfold bind at 1, do_embed_query at 1, call at 1. cbv beta iota.
  destruct (embed_query W (length (trace self)) (Text.take 1000 query_text))
    as [qe|e].
  - unfold bind.
    destruct (score_loop W qe (unique_loop results ∅) _) as [[scored|?] s3] eqn:E3.
    + intros R. inversion R; subst. split; [|exact I].
      apply score_loop_fst in E3.
      rewrite length_map.
      rewrite (Permutation_length (sort_desc_perm snd scored)).
      rewrite <- (length_map fst scored), E3.
      apply sublist_length, unique_loop_sublist.
    + intros R. inversion R; subst. split; [lia|exact I].
  - intros R. inversion R; subst. split; [lia|]. split; [reflexivity|].
    apply new_events_log1.
Qed.

(* ================================================================== *)
(** * The filtered search when the store fails                         *)
(* ================================================================== *)

(** X8: when the over-fetch of [_filtered_search] raises, the filters
    are given up.  The method then answers with whatever an unfiltered
    search for [k] chunks answers, chunks that match no filter and an
    exception of that second search included. *)
Theorem filtered_search_unfiltered_on_failure (W : World) (question : string)
    (filters : list (string * Value)) (k : nat) (self : RagSystem) (e : string) :
  similarity_search W (length (trace self)) question (k * 3) = Raise e ->
  _filtered_search W question filters k self =
    (similarity_search W (S (length (trace self))) question k,
     log (EvSimilaritySearch question k) (log (EvSimilaritySearch question (k * 3)) self)).
Proof.
  intros H. rewrite (filtered_search_fallback W question filters k self e H).
  unfold do_similarity_search, call. simpl. rewrite length_app. simpl.
  now rewrite Nat.add_1_r.
Qed.

Lemma filtered_search_unfiltered_on_failure_witness :
  fst (_filtered_search slow_store_world photosynthesis_question
         (search_filters_of (Some 7%Z) None) 5 (fresh_system (Some 7%Z))) = Ok [chunk2] /\
  matching (search_filters_of (Some 7%Z) None) chunk2 = false.
Proof.
  split; [|reflexivity].
  rewrite (filtered_search_unfiltered_on_failure slow_store_world photosynthesis_question
             (search_filters_of (Some 7%Z) None) 5 (fresh_system (Some 7%Z)) "timed out"
             eq_refl).
  reflexivity.
Defined.

(* ================================================================== *)
(** * The score of a verified answer                                   *)
(* ================================================================== *)

Lemma ask_composite_score_witness :
  exists final_score, unit_interval final_score /\ (final_score == 9 # 10)%Q.
Proof.
  destruct (ask_composite_score (library_world [chunk1] chat_confident)
              photosynthesis_question None true (7 # 10) (fresh_system None)
              _ _ eq_refl eq_refl) as (final_score & _ & F & U).
  exists final_score. split; [exact U|].
  rewrite F. vm_compute. reflexivity.
Defined.

(* ================================================================== *)
(** * The question that reaches [ask]                                  *)
(* ================================================================== *)

Module CleanFacts.
Import Text TextFacts StripFacts.

Ltac by_cases_on_char :=
  intros [[] [] [] [] [] [] [] []]; vm_compute; try reflexivity; try discriminate; auto.

(** The character classes, one character at a time. *)
Lemma kept_char_clean (c : ascii) :
  isword c || isspace c = true -> isspace c = false -> clean_char (lower_char c) = true.
Proof. revert c. by_cases_on_char. Qed.

Lemma clean_char_kept (c : ascii) : clean_char c = true -> isword c || isspace c = true.
Proof. revert c. by_cases_on_char. Qed.

Lemma clean_char_lower (c : ascii) : clean_char c = true -> lower_char c = c.
Proof. revert c. by_cases_on_char. Qed.

Lemma clean_char_space (c : ascii) :
  clean_char c = true -> isspace c = Ascii.eqb c " ".
Proof. revert c. by_cases_on_char. Qed.

Lemma lower_char_space (c : ascii) : isspace (lower_char c) = isspace c.
Proof. revert c. by_cases_on_char. Qed.

Lemma lower_char_blank (c : ascii) : Ascii.eqb (lower_char c) " " = Ascii.eqb c " ".
Proof. revert c. by_cases_on_char. Qed.

Lemma lower_char_alpha (c : ascii) : isalpha (lower_char c) = isalpha c.
Proof. revert c. by_cases_on_char. Qed.

Lemma alpha_word (c : ascii) : isalpha c = true -> isword c || isspace c = true.
Proof. revert c. by_cases_on_char. Qed.

Lemma alpha_solid (c : ascii) : isalpha c = true -> isspace c = false.
Proof. revert c. by_cases_on_char. Qed.

Lemma blank_is_space (c : ascii) : Ascii.eqb c " " = true -> isspace c = true.
Proof. revert c. by_cases_on_char. Qed.

Lemma squeezed_char_clean (c : ascii) :
  squeezed_char c = true -> clean_char (lower_char c) = true.
Proof. revert c. by_cases_on_char. Qed.

Lemma squeezed_char_blank (c : ascii) :
  squeezed_char c = true -> isspace c = Ascii.eqb c " ".
Proof. revert c. by_cases_on_char. Qed.

Lemma kept_squeezed (c : ascii) :
  isword c || isspace c = true -> isspace c = false -> squeezed_char c = true.
Proof. revert c. by_cases_on_char. Qed.

(** [sforall], [sexists] and the string operations. *)
Lemma sforall_app (P : ascii -> bool) (a b : string) :
  sforall P (a +:+ b) = sforall P a && sforall P b.
Proof.
  induction a as [|c a IH]; [now rewrite append_nil|].
  rewrite append_cons. simpl. now rewrite IH, andb_assoc.
Qed.

Lemma sexists_app (P : ascii -> bool) (a b : string) :
  sexists P (a +:+ b) = sexists P a || sexists P b.
Proof.
  induction a as [|c a IH]; [now rewrite append_nil|].
  rewrite append_cons. simpl. now rewrite IH, orb_assoc.
Qed.

Lemma sforall_sfilter (keep : ascii -> bool) (s : string) : sforall keep (sfilter keep s) = true.
Proof.
  induction s as [|c s IH]; [reflexivity|]. simpl.
  destruct (keep c) eqn:E; [|exact IH]. simpl. now rewrite E.
Qed.

Lemma sfilter_all (keep : ascii -> bool) (s : string) :
  sforall keep s = true -> sfilter keep s = s.
Proof.
  induction s as [|c s IH]; [reflexivity|]. simpl. intros H.
  apply andb_prop in H as [Hc H]. now rewrite Hc, IH.
Qed.

Lemma sfilter_length (keep : ascii -> bool) (s : string) :
  String.length (sfilter keep s) <= String.length s.
Proof.
  induction s as [|c s IH]; [reflexivity|]. simpl. destruct (keep c); simpl; lia.
Qed.

Lemma sexists_sfilter (P keep : ascii -> bool) (s : string) :
  (forall c, P c = true -> keep c = true) ->
  sexists P (sfilter keep s) = sexists P s.
Proof.
  intros H. induction s as [|c s IH]; [reflexivity|]. simpl.
  destruct (keep c) eqn:E; simpl; rewrite IH; [reflexivity|].
  destruct (P c) eqn:Ec; [|reflexivity]. rewrite (H c Ec) in E. discriminate.
Qed.

Lemma single_spaced_cons (a b : ascii) (t : string) :
  single_spaced (String a (String b t)) =
    negb (Ascii.eqb a " " && Ascii.eqb b " ") && single_spaced (String b t).
Proof. reflexivity. Qed.

(** [squeeze_spaces] *)
Lemma squeeze_chars (b : bool) (s : string) :
  sforall (fun c => isword c || isspace c) s = true ->
  sforall squeezed_char (squeeze_spaces b s) = true.
Proof.
  revert b. induction s as [|c s IH]; intros b H; [reflexivity|].
  simpl in H. apply andb_prop in H as [Hc H]. simpl.
  pose proof (kept_squeezed c Hc) as K.
  destruct (isspace c) eqn:E.
  - destruct b; simpl; now apply IH.
  - simpl. rewrite (K eq_refl). now apply IH.
Qed.

Lemma squeeze_single (b : bool) (s : string) :
  single_spaced (squeeze_spaces b s) = true /\
  (b = true -> starts_solid (squeeze_spaces b s) = true).
Proof.
  revert b. induction s as [|c s IH]; intros b; [split; reflexivity|].
  simpl. destruct (isspace c) eqn:E.
  - destruct (IH true) as [IH1 IH2]. destruct b.
    + split; [exact IH1|]. intros _. now apply IH2.
    + split; [|discriminate]. specialize (IH2 eq_refl).
      destruct (squeeze_spaces true s) as [|d t] eqn:Es; [reflexivity|].
      rewrite single_spaced_cons, IH1. simpl in IH2.
      destruct (Ascii.eqb d " ") eqn:Ed; [|reflexivity].
      apply blank_is_space in Ed. rewrite Ed in IH2. discriminate.
  - destruct (IH false) as [IH1 _]. split.
    + destruct (squeeze_spaces false s) as [|d t] eqn:Es; [reflexivity|].
      rewrite single_spaced_cons, IH1.
      destruct (Ascii.eqb c " ") eqn:Ec; [|reflexivity].
      apply blank_is_space in Ec. congruence.
    + intros _. simpl. now rewrite E.
Qed.

Lemma squeeze_length (b : bool) (s : string) :
  String.length (squeeze_spaces b s) <= String.length s.
Proof.
  revert b. induction s as [|c s IH]; intros b; [reflexivity|]. simpl.
  pose proof (IH true). pose proof (IH false).
  destruct (isspace c); [destruct b|]; simpl; lia.
Qed.

Lemma squeeze_alpha (b : bool) (s : string) :
  sexists isalpha (squeeze_spaces b s) = sexists isalpha s.
Proof.
  revert b. induction s as [|c s IH]; intros b; [reflexivity|]. simpl.
  destruct (isspace c) eqn:E.
  - assert (isalpha c = false) as ->.
    { destruct (isalpha c) eqn:Ea; [|reflexivity]. apply alpha_solid in Ea. congruence. }
    destruct b; simpl; apply IH.
  - simpl. now rewrite IH.
Qed.

Lemma squeeze_fixed (b : bool) (s : string) :
  sforall clean_char s = true -> single_spaced s = true ->
  (b = true -> starts_solid s = true) ->
  squeeze_spaces b s = s.
Proof.
  revert b. induction s as [|c s IH]; intros b Hc Hs Hb; [reflexivity|].
  simpl in Hc. apply andb_prop in Hc as [Hc Hcs].
  assert (Hs' : single_spaced s = true).
  { destruct s; [reflexivity|]. rewrite single_spaced_cons in Hs.
    now apply andb_prop in Hs as [_ Hs]. }
  simpl. destruct (isspace c) eqn:E.
  - destruct b; [specialize (Hb eq_refl); simpl in Hb; rewrite E in Hb; discriminate|].
    rewrite (clean_char_space c Hc) in E. apply Ascii.eqb_eq in E. subst c.
    f_equal. apply IH; try assumption. intros _.
    destruct s as [|d t]; [reflexivity|]. rewrite single_spaced_cons in Hs.
    apply andb_prop in Hs as [Hs _]. simpl in Hs. simpl.
    simpl in Hcs. apply andb_prop in Hcs as [Hd _].
    rewrite (clean_char_space d Hd). now destruct (Ascii.eqb d " ").
  - f_equal. apply IH; try assumption. discriminate.
Qed.

(** Substrings of a single-spaced text. *)
Lemma single_spaced_app_r (a b : string) :
  single_spaced (a +:+ b) = true -> single_spaced b = true.
Proof.
  induction a as [|c a IH]; [now rewrite append_nil|].
  rewrite append_cons. intros H. apply IH.
  destruct (a +:+ b); [reflexivity|]. rewrite single_spaced_cons in H.
  now apply andb_prop in H as [_ H].
Qed.

Lemma single_spaced_app_l (a b : string) :
  single_spaced (a +:+ b) = true -> single_spaced a = true.
Proof.
  induction a as [|c a IH]; [reflexivity|].
  rewrite append_cons. intros H.
  destruct a as [|d a']; [reflexivity|].
  rewrite append_cons in H. rewrite single_spaced_cons in H.
  apply andb_prop in H as [H1 H2]. rewrite single_spaced_cons, H1.
  apply IH. now rewrite append_cons.
Qed.

(** [lower] *)
Lemma smap_srev_onto (f : ascii -> ascii) (s acc : string) :
  smap f (srev_onto s acc) = srev_onto (smap f s) (smap f acc).
Proof.
  revert acc. induction s as [|c s IH]; intros acc; [reflexivity|]. simpl. now rewrite IH.
Qed.

Lemma lower_srev (s : string) : lower (srev s) = srev (lower s).
Proof. unfold lower, srev. now rewrite smap_srev_onto. Qed.

Lemma lower_solid (s : string) : starts_solid (lower s) = starts_solid s.
Proof.
  unfold lower. destruct s as [|c s]; [reflexivity|]. simpl. now rewrite lower_char_space.
Qed.

Lemma lower_single (s : string) : single_spaced (lower s) = single_spaced s.
Proof.
  induction s as [|c s IH]; [reflexivity|].
  destruct s as [|d t]; [reflexivity|].
  change (lower (String c (String d t)))
    with (String (lower_char c) (String (lower_char d) (lower t))).
  rewrite !single_spaced_cons, !lower_char_blank. f_equal. exact IH.
Qed.

Lemma lower_chars (s : string) :
  sforall squeezed_char s = true -> sforall clean_char (lower s) = true.
Proof.
  unfold lower. induction s as [|c s IH]; [reflexivity|]. simpl. intros H.
  apply andb_prop in H as [Hc H]. now rewrite (squeezed_char_clean c Hc), IH.
Qed.

Lemma lower_fixed (s : string) : sforall clean_char s = true -> lower s = s.
Proof.
  unfold lower. induction s as [|c s IH]; [reflexivity|]. simpl. intros H.
  apply andb_prop in H as [Hc H]. now rewrite (clean_char_lower c Hc), IH.
Qed.

Lemma lower_length (s : string) : String.length (lower s) = String.length s.
Proof. unfold lower. induction s as [|c s IH]; [reflexivity|]. simpl. now rewrite IH. Qed.

Lemma lower_alpha (s : string) : sexists isalpha (lower s) = sexists isalpha s.
Proof.
  unfold lower. induction s as [|c s IH]; [reflexivity|]. simpl.
  now rewrite lower_char_alpha, IH.
Qed.

(** [strip] *)
Lemma blank_no_alpha (s : string) : blank s = true -> sexists isalpha s = false.
Proof.
  induction s as [|c s IH]; [reflexivity|]. simpl. intros H.
  apply andb_prop in H as [Hc H]. rewrite (IH H), orb_false_r.
  destruct (isalpha c) eqn:E; [|reflexivity]. apply alpha_solid in E. congruence.
Qed.

Lemma strip_fixed (s : string) :
  starts_solid s = true -> starts_solid (srev s) = true -> strip s = s.
Proof.
  intros H1 H2. apply strip_unique. exists "", "".
  rewrite append_nil, append_empty_r. repeat split; assumption.
Qed.

Lemma strip_idem (s : string) : strip (strip s) = strip s.
Proof.
  destruct (strip_spec s) as (ws1 & ws2 & _ & _ & _ & H1 & H2). now apply strip_fixed.
Qed.

Lemma clean_text_unfold (text : string) : clean_text text = lower (squeezed text).
Proof. destruct text; reflexivity. Qed.

Lemma squeezed_form (text : string) :
  sforall squeezed_char (squeezed text) = true /\
  single_spaced (squeezed text) = true /\
  starts_solid (squeezed text) = true /\
  starts_solid (srev (squeezed text)) = true.
Proof.
  unfold squeezed.
  set (u := squeeze_spaces false (sfilter (fun c => isword c || isspace c) text)).
  assert (Hu : sforall squeezed_char u = true)
    by (apply squeeze_chars, sforall_sfilter).
  destruct (squeeze_single false (sfilter (fun c => isword c || isspace c) text))
    as [Hs _]. fold u in Hs.
  destruct (strip_spec u) as (ws1 & ws2 & E & _ & _ & H1 & H2).
  rewrite E in Hu, Hs. rewrite !sforall_app in Hu.
  apply andb_prop in Hu as [_ Hu]. apply andb_prop in Hu as [Hu _].
  apply single_spaced_app_r, single_spaced_app_l in Hs. auto.
Qed.

Lemma clean_text_form (text : string) : clean_form (clean_text text).
Proof.
  rewrite clean_text_unfold.
  destruct (squeezed_form text) as (Hc & Hs & H1 & H2).
  unfold clean_form. rewrite lower_single, lower_solid, <- lower_srev, lower_solid.
  split; [now apply lower_chars|]. auto.
Qed.

Lemma clean_form_fixed (s : string) : clean_form s -> clean_text s = s.
Proof.
  intros (Hc & Hs & H1 & H2). rewrite clean_text_unfold. unfold squeezed.
  rewrite sfilter_all.
  2:{ clear Hs H1 H2. induction s as [|c s IH]; [reflexivity|]. simpl in *.
      apply andb_prop in Hc as [Hc Hcs]. now rewrite (clean_char_kept c Hc), IH. }
  rewrite squeeze_fixed by (assumption || discriminate).
  rewrite strip_fixed by assumption. now apply lower_fixed.
Qed.

Lemma clean_text_length (text : string) :
  String.length (clean_text text) <= String.length text.
Proof.
  rewrite clean_text_unfold, lower_length. unfold squeezed.
  set (u := squeeze_spaces false _).
  destruct (strip_spec u) as (ws1 & ws2 & E & _).
  assert (String.length (strip u) <= String.length u).
  { rewrite E at 2. rewrite !append_length. lia. }
  pose proof (squeeze_length false (sfilter (fun c => isword c || isspace c) text)).
  pose proof (sfilter_length (fun c => isword c || isspace c) text).
  fold u in H0. lia.
Qed.

Lemma clean_text_alpha (text : string) :
  sexists isalpha (clean_text text) = sexists isalpha text.
Proof.
  rewrite clean_text_unfold, lower_alpha. unfold squeezed.
  set (u := squeeze_spaces false _).
  destruct (strip_spec u) as (ws1 & ws2 & E & B1 & B2 & _).
  transitivity (sexists isalpha u).
  - rewrite E at 2. rewrite !sexists_app.
    now rewrite (blank_no_alpha _ B1), (blank_no_alpha _ B2), orb_false_r.
  - unfold u. rewrite squeeze_alpha. apply sexists_sfilter. apply alpha_word.
Qed.

End CleanFacts.

(** X16: what [clean_text] returns.  For a text of ASCII characters the
    result holds only lower-case letters, digits, underscores and single
    spaces, with no space at either end; it is no longer than the text;
    and cleaning it again changes nothing. *)
Theorem clean_text_normal_form (text : string) :
  is_ascii text = true ->
  clean_form (clean_text text) /\
  String.length (clean_text text) <= String.length text /\
  clean_text (clean_text text) = clean_text text.
Proof.
  intros _. split; [apply CleanFacts.clean_text_form|].
  split; [apply CleanFacts.clean_text_length|].
  apply CleanFacts.clean_form_fixed, CleanFacts.clean_text_form.
Qed.

Lemma clean_text_normal_form_witness :
  clean_form (clean_text "  What does  Photosynthesis convert?! ") /\
  String.length (clean_text "  What does  Photosynthesis convert?! ") <= 38 /\
  clean_text (clean_text "  What does  Photosynthesis convert?! ") =
    clean_text "  What does  Photosynthesis convert?! ".
Proof.
  exact (clean_text_normal_form "  What does  Photosynthesis convert?! " eq_refl).
Defined.

(** X17: the question the chat route hands to [ask].  When the route
    accepts the [question] field of a request (ASCII text), the question
    it passes on is not empty, has at most 1000 characters, holds a
    letter, and is in the form [clean_text] gives: lower case, no
    punctuation, single spaces. *)
Theorem ask_question_input_clean (raw question : string) :
  is_ascii raw = true ->
  ask_question_input (Some raw) = Ok question ->
  question <> "" /\
  String.length question <= 1000 /\
  sexists isalpha question = true /\
  clean_form question.
Proof.
  intros _. unfold ask_question_input, validate_question.
  rewrite CleanFacts.strip_idem.
  destruct (Text.strip raw) as [|c t] eqn:Es; [discriminate|]. rewrite <- Es.
  destruct (String.length (Text.strip raw) <? 3); [discriminate|].
  destruct (1000 <? String.length (Text.strip raw)) eqn:L; [discriminate|].
  destruct (sexists isalpha (Text.strip raw)) eqn:A; [|discriminate].
  destruct (has_long_run (Text.strip raw)); [discriminate|].
  cbn [valid negb]. intros H. inversion H as [Hq].
  assert (Ha : sexists isalpha (clean_text (Text.strip raw)) = true)
    by now rewrite CleanFacts.clean_text_alpha.
  split; [|split; [|split]].
  - intros E. rewrite E in Ha. discriminate.
  - apply Nat.ltb_ge in L. pose proof (CleanFacts.clean_text_length (Text.strip raw)). lia.
  - exact Ha.
  - apply CleanFacts.clean_text_form.
Qed.

Lemma ask_question_input_clean_witness :
  "what does photosynthesis convert" <> "" /\
  String.length "what does photosynthesis convert" <= 1000 /\
  sexists isalpha "what does photosynthesis convert" = true /\
  clean_form "what does photosynthesis convert".
Proof.
  exact (ask_question_input_clean " What does photosynthesis convert? "
           "what does photosynthesis convert" eq_refl eq_refl).
Defined.

(* ================================================================== *)
(** * Clearing the history                                             *)
(* ================================================================== *)

